(** * extract.py: response repair, column-shift correction and state carry

    A shallow embedding of [n8n/local_files/extract.py].  Python [str] values
    are modelled as [string]; one [ascii] stands for one code point below 256
    (the Latin-1 range), which is where every character the program tests for
    lives (quotes, braces, commas, digits, ASCII letters, white space).
    A Python [float] is only ever compared with zero by the program, so a
    float is kept as the exact decimal it was read from, and the two
    comparisons [== 0] and [> 0] are decided on the binary64 value that
    decimal rounds to. *)

From Stdlib Require Import String Ascii List ZArith NArith Bool Lia.
Import ListNotations.
Local Open Scope string_scope.
Local Open Scope bool_scope.

(** ** Python string primitives used by the program *)

Module PyStr.

Definition ord (c : ascii) : N := N_of_ascii c.

Definition in_range (lo hi : N) (c : ascii) : bool :=
  ((lo <=? ord c) && (ord c <=? hi))%N.

(** [str.isspace] on one code point: TAB..CR, FS..US, SPACE, NEL, NBSP. *)
Definition isspace (c : ascii) : bool :=
  in_range 9 13 c || in_range 28 32 c || (ord c =? 133)%N || (ord c =? 160)%N.

Fixpoint lstrip (s : string) : string :=
  match s with
  | EmptyString => EmptyString
  | String c s' => if isspace c then lstrip s' else s
  end.

Fixpoint rstrip (s : string) : string :=
  match s with
  | EmptyString => EmptyString
  | String c s' =>
      match rstrip s' with
      | EmptyString => if isspace c then EmptyString else String c EmptyString
      | r => String c r
      end
  end.

(** [s.strip()] *)
Definition strip (s : string) : string := rstrip (lstrip s).

(** [str.lower] on one code point: A..Z and the Latin-1 capitals. *)
Definition lower_char (c : ascii) : ascii :=
  if in_range 65 90 c || (in_range 192 222 c && negb (ord c =? 215)%N)
  then ascii_of_N (ord c + 32) else c.

Fixpoint lower (s : string) : string :=
  match s with
  | EmptyString => EmptyString
  | String c s' => String (lower_char c) (lower s')
  end.

(** [s.replace(old, new)] for a non-empty [old], scanning left to right
    and never re-reading replaced text; [skip] counts the characters of a
    matched [old] still to be dropped. *)
Fixpoint replace_from (old new : string) (skip : nat) (s : string) : string :=
  match s with
  | EmptyString => EmptyString
  | String c s' =>
      match skip with
      | S k => replace_from old new k s'
      | O =>
          if prefix old s
          then new ++ replace_from old new (String.length old - 1) s'
          else String c (replace_from old new 0 s')
      end
  end.

Definition str_replace (s old new : string) : string := replace_from old new 0 s.

(** [s.find(c)] for a one-character needle: the least index, or -1. *)
Fixpoint find_from (c : ascii) (i : Z) (s : string) : Z :=
  match s with
  | EmptyString => (-1)%Z
  | String a s' => if Ascii.eqb a c then i else find_from c (i + 1)%Z s'
  end.

Definition find (s : string) (c : ascii) : Z := find_from c 0%Z s.

(** [s.rfind(c)]: the greatest index, or -1. *)
Fixpoint rfind_from (c : ascii) (i last : Z) (s : string) : Z :=
  match s with
  | EmptyString => last
  | String a s' => rfind_from c (i + 1)%Z (if Ascii.eqb a c then i else last) s'
  end.

Definition rfind (s : string) (c : ascii) : Z := rfind_from c 0%Z (-1)%Z s.

(** Index normalisation of a slice bound: negative bounds count from the
    end, and every bound is clamped to [0, len]. *)
Definition clamp_index (len i : Z) : Z :=
  if (i <? 0)%Z then Z.max 0 (i + len) else Z.min i len.

(** [s[start:stop]] *)
Definition slice (s : string) (start stop : Z) : string :=
  let len := Z.of_nat (String.length s) in
  let a := clamp_index len start in
  let b := clamp_index len stop in
  substring (Z.to_nat a) (Z.to_nat (b - a)) s.

(** Line boundaries of [str.splitlines]: LF, VT, FF, CR, FS, GS, RS, NEL. *)
Definition is_linebreak (c : ascii) : bool :=
  in_range 10 13 c || in_range 28 30 c || (ord c =? 133)%N.

(** [s.splitlines()]: [cur] is the line being read; CR LF is one
    boundary; a final line is produced only when it is not empty. *)
Fixpoint splitlines_from (cur : string) (s : string) : list string :=
  match s with
  | EmptyString => if (cur =? EmptyString) then [] else [cur]
  | String c s' =>
      if is_linebreak c then
        match s' with
        | String c' s'' =>
            if ((ord c =? 13)%N && (ord c' =? 10)%N)
            then cur :: splitlines_from EmptyString s''
            else cur :: splitlines_from EmptyString s'
        | EmptyString => cur :: splitlines_from EmptyString s'
        end
      else splitlines_from (cur ++ String c EmptyString) s'
  end.

Definition splitlines (s : string) : list string := splitlines_from EmptyString s.

(** [sep.join(l)] *)
Definition join (sep : string) (l : list string) : string := String.concat sep l.

End PyStr.

(** ** The part of Python floats the program observes *)

Module PyFloat.
Import PyStr.

(** A parsed float before rounding: not-a-number, an infinity, or the
    exact decimal [(-1)^neg * m * 10^e] with [0 <= m]. *)
Inductive pyfloat : Type :=
| FNan
| FInf (neg : bool)
| FDec (neg : bool) (m : Z) (e : Z).

Definition is_digit (c : ascii) : bool := in_range 48 57 c.

Definition digit_val (c : ascii) : Z := (Z.of_N (ord c) - 48)%Z.

(** Code points above 127 are replaced before parsing: white space by a
    blank, anything else by a question mark (Latin-1 has no decimal digit
    there). *)
Definition to_ascii_char (c : ascii) : ascii :=
  if (ord c <=? 127)%N then c
  else if isspace c then " "%char else "?"%char.

Fixpoint to_ascii_spaces (s : string) : string :=
  match s with
  | EmptyString => EmptyString
  | String c s' => String (to_ascii_char c) (to_ascii_spaces s')
  end.

(** Underscores are dropped, and allowed only between two digits. *)
Fixpoint drop_underscores (prev : ascii) (s : string) : option string :=
  match s with
  | EmptyString => if Ascii.eqb prev "_" then None else Some EmptyString
  | String c s' =>
      if Ascii.eqb c "_" then
        if is_digit prev then drop_underscores c s' else None
      else if Ascii.eqb prev "_" && negb (is_digit c) then None
      else option_map (String c) (drop_underscores c s')
  end.

(** White space of the C locale, stripped by the float parser itself. *)
Definition c_isspace (c : ascii) : bool :=
  in_range 9 13 c || (ord c =? 32)%N.

Fixpoint c_lstrip (s : string) : string :=
  match s with
  | EmptyString => EmptyString
  | String c s' => if c_isspace c then c_lstrip s' else s
  end.

Fixpoint c_rstrip (s : string) : string :=
  match s with
  | EmptyString => EmptyString
  | String c s' =>
      match c_rstrip s' with
      | EmptyString => if c_isspace c then EmptyString else String c EmptyString
      | r => String c r
      end
  end.

Definition read_sign (s : string) : bool * string :=
  match s with
  | String "-" s' => (true, s')
  | String "+" s' => (false, s')
  | _ => (false, s)
  end.

(** A maximal run of digits: the number read after [acc], how many digits
    were read after [cnt], and the rest. *)
Fixpoint read_digits (acc cnt : Z) (s : string) : Z * Z * string :=
  match s with
  | String c s' =>
      if is_digit c then read_digits (10 * acc + digit_val c)%Z (cnt + 1)%Z s'
      else (acc, cnt, s)
  | EmptyString => (acc, cnt, s)
  end.

Definition ascii_lower (c : ascii) : ascii :=
  if in_range 65 90 c then ascii_of_N (ord c + 32) else c.

Fixpoint ascii_lower_str (s : string) : string :=
  match s with
  | EmptyString => EmptyString
  | String c s' => String (ascii_lower c) (ascii_lower_str s')
  end.

(** inf, infinity and nan in any letter case. *)
Definition parse_inf_or_nan (neg : bool) (s : string) : option pyfloat :=
  let l := ascii_lower_str s in
  if (l =? "inf") || (l =? "infinity") then Some (FInf neg)
  else if (l =? "nan") then Some FNan
  else None.

(** The exponent part: nothing, or e, an optional sign and at least one
    digit, up to the end of the text. *)
Definition parse_exponent (s : string) : option Z :=
  match s with
  | EmptyString => Some 0%Z
  | String c s' =>
      if Ascii.eqb c "e" || Ascii.eqb c "E" then
        let '(eneg, ds) := read_sign s' in
        match read_digits 0 0 ds with
        | (v, n, EmptyString) =>
            if (0 <? n)%Z then Some (if eneg then (- v)%Z else v) else None
        | _ => None
        end
      else None
  end.

(** Digits, an optional point, digits (one digit at least), exponent. *)
Definition parse_decimal (neg : bool) (s : string) : option pyfloat :=
  let '(ip, n1, r1) := read_digits 0 0 s in
  let '(m, n2, r2) :=
    match r1 with
    | String "." r => read_digits ip 0 r
    | _ => (ip, 0%Z, r1)
    end in
  if (0 <? n1 + n2)%Z then
    match parse_exponent r2 with
    | Some x => Some (FDec neg m (x - n2))
    | None => None
    end
  else None.

(** [float(s)]; [None] stands for the ValueError it raises. *)
Definition float_of_string (s : string) : option pyfloat :=
  match drop_underscores zero (to_ascii_spaces s) with
  | None => None
  | Some t =>
      let '(neg, body) := read_sign (c_rstrip (c_lstrip t)) in
      match parse_inf_or_nan neg body with
      | Some f => Some f
      | None => parse_decimal neg body
      end
  end.

(** The decimal [m * 10^e] rounds to a binary64 zero exactly when it is at
    most half the least subnormal, [2^-1075] (ties go to the even
    neighbour, which is zero). *)
Definition rounds_to_zero (m e : Z) : bool :=
  (m =? 0)%Z || ((e <? 0)%Z && (m * 2 ^ 1075 <=? 10 ^ (- e))%Z).

(** [x == 0] *)
Definition eq0 (x : pyfloat) : bool :=
  match x with
  | FDec _ m e => rounds_to_zero m e
  | _ => false
  end.

(** [x > 0] *)
Definition gt0 (x : pyfloat) : bool :=
  match x with
  | FNan => false
  | FInf neg => negb neg
  | FDec neg m e => negb neg && negb (rounds_to_zero m e)
  end.

End PyFloat.

Import PyStr PyFloat.

(** ** The data model *)

Record LineItem : Type := mkLineItem {
  unit : string;
  room : string;
  category : string;
  serial : string;
  description : string;
  qty : string;
  uom : string;
  reset : string;
  remove : string;
  replace : string;
  tax : string;
  oandp : string;
  total : string
}.

(** ** Column-shift corrector *)

Definition _to_num (s : string) : pyfloat :=
  let t := strip (str_replace s "," EmptyString) in
  match float_of_string (if (t =? EmptyString) then "0" else t) with
  | Some x => x
  | None => FDec false 0 0
  end.

Definition cond_a (item : LineItem) : bool :=
  eq0 (_to_num (total item)) && gt0 (_to_num (oandp item)).

Definition cond_b (item : LineItem) : bool :=
  (oandp item =? total item) && gt0 (_to_num (total item)).

Definition cond_c (item : LineItem) : bool :=
  (replace item =? tax item) && gt0 (_to_num (tax item)).

Definition cond_d (item : LineItem) : bool :=
  eq0 (_to_num (reset item)) && gt0 (_to_num (remove item))
  && gt0 (_to_num (replace item)).

Definition _needs_left_shift (item : LineItem) : bool :=
  cond_a item || cond_b item || cond_c item || cond_d item.

(** Assignment to one key of the item, [item[k] = v]. *)
Definition set_reset (v : string) (item : LineItem) : LineItem :=
  mkLineItem (unit item) (room item) (category item) (serial item)
    (description item) (qty item) (uom item)
    v (remove item) (replace item) (tax item) (oandp item) (total item).

Definition set_remove (v : string) (item : LineItem) : LineItem :=
  mkLineItem (unit item) (room item) (category item) (serial item)
    (description item) (qty item) (uom item)
    (reset item) v (replace item) (tax item) (oandp item) (total item).

Definition set_replace (v : string) (item : LineItem) : LineItem :=
  mkLineItem (unit item) (room item) (category item) (serial item)
    (description item) (qty item) (uom item)
    (reset item) (remove item) v (tax item) (oandp item) (total item).

Definition set_tax (v : string) (item : LineItem) : LineItem :=
  mkLineItem (unit item) (room item) (category item) (serial item)
    (description item) (qty item) (uom item)
    (reset item) (remove item) (replace item) v (oandp item) (total item).

Definition set_oandp (v : string) (item : LineItem) : LineItem :=
  mkLineItem (unit item) (room item) (category item) (serial item)
    (description item) (qty item) (uom item)
    (reset item) (remove item) (replace item) (tax item) v (total item).

Definition set_total (v : string) (item : LineItem) : LineItem :=
  mkLineItem (unit item) (room item) (category item) (serial item)
    (description item) (qty item) (uom item)
    (reset item) (remove item) (replace item) (tax item) (oandp item) v.

(** The five assignments both passes make on the copied item, in source
    order. *)
Definition shift_right (item : LineItem) : LineItem :=
  let item := set_total (oandp item) item in
  let item := set_oandp (tax item) item in
  let item := set_tax (replace item) item in
  let item := set_replace (remove item) item in
  set_remove "0" item.

(** General safety-net pass. *)
Definition fix_shift (item : LineItem) : LineItem :=
  if _needs_left_shift item then shift_right item else item.

(** Duplicate-specific pass.  A [LineItem] has every key, so the KeyError
    handler of the source is never entered. *)
Definition shift_on_dup (item : LineItem) : LineItem :=
  if (oandp item =? total item) && gt0 (_to_num (total item))
  then shift_right (set_reset "0" item)
  else item.

(** The corrector as the orchestrator applies it to each item: the
    duplicate pass, then the safety net. *)
Definition correct_item (item : LineItem) : LineItem :=
  fix_shift (shift_on_dup item).

(** ** Response sanitizer *)

Module PyJson.

Definition dquote : ascii := "034"%char.
Definition backslash : ascii := "092"%char.

Definition hex_digit (n : N) : ascii :=
  if (n <? 10)%N then ascii_of_N (48 + n) else ascii_of_N (87 + n).

(** The escape [json.dumps] writes for one character (ensure_ascii is on
    by default): the printable ASCII characters other than the quote and
    the backslash stand for themselves. *)
Definition escape_char (c : ascii) : string :=
  if Ascii.eqb c dquote then String backslash (String dquote EmptyString)
  else if Ascii.eqb c backslash then String backslash (String backslash EmptyString)
  else if (ord c =? 10)%N then String backslash "n"
  else if (ord c =? 13)%N then String backslash "r"
  else if (ord c =? 9)%N then String backslash "t"
  else if (ord c =? 12)%N then String backslash "f"
  else if (ord c =? 8)%N then String backslash "b"
  else if in_range 32 126 c then String c EmptyString
  else String backslash
         ("u00" ++ String (hex_digit (ord c / 16)) (String (hex_digit (ord c mod 16)) EmptyString)).

Fixpoint escape_body (s : string) : string :=
  match s with
  | EmptyString => EmptyString
  | String c s' => escape_char c ++ escape_body s'
  end.

(** [json.dumps(s)] for a string [s]. *)
Definition dumps (s : string) : string :=
  String dquote (escape_body s ++ String dquote EmptyString).

(** Parsed JSON values, as [json.loads] returns them; a number keeps its
    literal. *)
#[warnings="-register-all"]
Inductive json : Type :=
| JNull
| JBool (b : bool)
| JNumber (literal : string)
| JString (s : string)
| JArray (elements : list json)
| JObject (members : list (string * json)).

End PyJson.

Import PyJson.

(** The pattern of [fix_json_lines], read left to right.  Every choice the
    backtracking matcher could make is forced by the next character (white
    space is never a quote, a colon or a comma; a value token never starts
    with a quote), so the match, when there is one, is found by one scan. *)

Fixpoint span_space (s : string) : string * string :=
  match s with
  | String c s' =>
      if isspace c then let '(w, r) := span_space s' in (String c w, r)
      else (EmptyString, s)
  | EmptyString => (EmptyString, EmptyString)
  end.

(** A maximal run of characters other than the quote. *)
Fixpoint span_key (s : string) : string * string :=
  match s with
  | String c s' =>
      if Ascii.eqb c dquote then (EmptyString, s)
      else let '(k, r) := span_key s' in (String c k, r)
  | EmptyString => (EmptyString, EmptyString)
  end.

Definition expect (c : ascii) (s : string) : option string :=
  match s with
  | String a s' => if Ascii.eqb a c then Some s' else None
  | EmptyString => None
  end.

(** The value group: a backslash with any character but a line feed after
    it, or a character that is neither a quote nor a backslash, repeated.
    Returns the value and the text from the closing quote on. *)
Fixpoint scan_value (s : string) : option (string * string) :=
  match s with
  | EmptyString => None
  | String c s' =>
      if Ascii.eqb c dquote then Some (EmptyString, s)
      else if Ascii.eqb c backslash then
        match s' with
        | String d s'' =>
            if (ord d =? 10)%N then None
            else match scan_value s'' with
                 | Some (v, r) => Some (String c (String d v), r)
                 | None => None
                 end
        | EmptyString => None
        end
      else match scan_value s' with
           | Some (v, r) => Some (String c v, r)
           | None => None
           end
  end.

(** The first group: white space, the quoted key (one character at least,
    none of them a quote), white space, a colon, white space.  Returns the
    group and the text after it. *)
Definition match_key (line : string) : option (string * string) :=
  let '(w0, r0) := span_space line in
  match expect dquote r0 with
  | None => None
  | Some r1 =>
      let '(k, r2) := span_key r1 in
      if (k =? EmptyString) then None else
      match expect dquote r2 with
      | None => None
      | Some r3 =>
          let '(w1, r4) := span_space r3 in
          match expect ":" r4 with
          | None => None
          | Some r5 =>
              let '(w2, r6) := span_space r5 in
              Some (w0 ++ String dquote (k ++ String dquote (w1 ++ String ":" w2)), r6)
          end
      end
  end.

(** After the closing quote of the value: white space, the third group (a
    comma or nothing), white space, and the end of the line. *)
Definition match_end (s : string) : option string :=
  let '(w3, r0) := span_space s in
  let '(trailing, r1) :=
    match r0 with
    | String "," r => (",", r)
    | _ => (EmptyString, r0)
    end in
  let '(w4, r2) := span_space r1 in
  if (r2 =? EmptyString) then Some trailing else None.

(** [pattern.match(line)]: the three groups (key part up to the opening
    quote of the value, value, trailing comma). *)
Definition pattern_match (line : string) : option (string * string * string) :=
  match match_key line with
  | None => None
  | Some (key, r0) =>
      match expect dquote r0 with
      | None => None
      | Some r1 =>
          match scan_value r1 with
          | None => None
          | Some (value, r2) =>
              match expect dquote r2 with
              | None => None
              | Some r3 =>
                  match match_end r3 with
                  | Some trailing => Some (key, value, trailing)
                  | None => None
                  end
              end
          end
      end
  end.

(** The body of the loop of [fix_json_lines], for one line. *)
Definition fix_line (line : string) : string :=
  match pattern_match line with
  | Some (key, value, trailing) => key ++ dumps value ++ trailing
  | None => line
  end.

Definition newline : string := String "010"%char EmptyString.

Definition fix_json_lines (raw_json : string) : string :=
  join newline (map fix_line (splitlines raw_json)).

(** Lines 98 to 101 of the source: the cut to the braces. *)
Definition cut_to_braces (text : string) : string :=
  let start := find text "{" in
  let end_ := (rfind text "}" + 1)%Z in
  if negb (start =? -1)%Z && negb (end_ =? -1)%Z
  then slice text start end_
  else text.

Definition strip_fences (text : string) : string :=
  strip (str_replace (str_replace text "```json" EmptyString) "```" EmptyString).

Definition clean_json_string (text : string) : string :=
  fix_json_lines (cut_to_braces (strip_fences text)).

(** ** State carrier *)

(** The three sticky variables of [process_pdf_chunks]. *)
Record CarryState : Type := mkCarryState {
  last_unit : string;
  last_room : string;
  last_category : string
}.

Definition initial_state : CarryState := mkCarryState "unknown" "unknown" "unknown".

Definition set_unit (v : string) (d : LineItem) : LineItem :=
  mkLineItem v (room d) (category d) (serial d) (description d) (qty d) (uom d)
    (reset d) (remove d) (replace d) (tax d) (oandp d) (total d).

Definition set_room (v : string) (d : LineItem) : LineItem :=
  mkLineItem (unit d) v (category d) (serial d) (description d) (qty d) (uom d)
    (reset d) (remove d) (replace d) (tax d) (oandp d) (total d).

Definition set_category (v : string) (d : LineItem) : LineItem :=
  mkLineItem (unit d) (room d) v (serial d) (description d) (qty d) (uom d)
    (reset d) (remove d) (replace d) (tax d) (oandp d) (total d).

(** What the run prints. *)
Inductive Event : Type :=
| UnitStateUpdated (chunk : nat) (value : string)
| JsonDecodeError (chunk : nat)
| RequestFailed (chunk : nat)
| ProcessingComplete.

(** The test of the three carry-forward blocks:
    [not v or v.strip().lower() == 'unknown']. *)
Definition lacks_value (v : string) : bool :=
  (v =? EmptyString) || (lower (strip v) =? "unknown").

(** The carry-forward blocks of the item loop, in source order. *)
Definition carry_forward (i : nat) (d : LineItem) (st : CarryState)
  : LineItem * CarryState * list Event :=
  let '(d, st, out) :=
    if lacks_value (unit d)
    then (set_unit (last_unit st) d, st, [])
    else (d, mkCarryState (unit d) (last_room st) (last_category st),
          [UnitStateUpdated i (unit d)]) in
  let '(d, st) :=
    if lacks_value (room d)
    then (set_room (last_room st) d, st)
    else (d, mkCarryState (last_unit st) (room d) (last_category st)) in
  let '(d, st) :=
    if lacks_value (category d)
    then (set_category (last_category st) d, st)
    else (d, mkCarryState (last_unit st) (last_room st) (category d)) in
  (d, st, out).

(** The loop over [structured.items]: carry forward, both correction
    passes, append to [fixed_dicts]. *)
Fixpoint process_items (i : nat) (items : list LineItem) (st : CarryState)
  : list LineItem * CarryState * list Event :=
  match items with
  | [] => ([], st, [])
  | it :: rest =>
      let '(d, st1, out1) := carry_forward i it st in
      let d := fix_shift (shift_on_dup d) in
      let '(fixed, st2, out2) := process_items i rest st1 in
      (d :: fixed, st2, (out1 ++ out2)%list)
  end.

(** ** Chunk orchestrator *)

Section Orchestrator.

(** The collaborators the source calls: the model request on one chunk
    ([None]: it raised, or the response carries no text), [json.loads]
    ([None]: JSONDecodeError) and the construction of [BDRItems] from the
    members of a JSON object ([None]: the validation raised).  Printing
    and writing the debug and output files are taken to succeed. *)
Variable Chunk : Type.
Variable generate_content : Chunk -> option string.
Variable json_loads : string -> option json.
Variable BDRItems : list (string * json) -> option (list LineItem).

(** How the try block of one chunk ends before the item loop. *)
Inductive ChunkOutcome : Type :=
| Structured (items : list LineItem)
| DecodeFailed
| Raised.

Definition extract_chunk (chunk : Chunk) : ChunkOutcome :=
  match generate_content chunk with
  | None => Raised
  | Some text =>
      match json_loads (clean_json_string text) with
      | None => DecodeFailed
      | Some json_data =>
          match json_data with
          | JArray [] => Raised
          | JArray (JObject members :: _) | JObject members =>
              match BDRItems members with
              | Some items => Structured items
              | None => Raised
              end
          | _ => Raised
          end
      end
  end.

(** The loop over the chunks, from chunk number [i] on. *)
Fixpoint process_chunks (i : nat) (chunks : list Chunk) (st : CarryState)
  (all_items : list LineItem) (out : list Event)
  : list LineItem * CarryState * list Event :=
  match chunks with
  | [] => (all_items, st, out)
  | chunk :: rest =>
      match extract_chunk chunk with
      | Structured items =>
          let '(fixed_dicts, st', out') := process_items i items st in
          process_chunks (S i) rest st' (all_items ++ fixed_dicts)%list (out ++ out')%list
      | DecodeFailed =>
          process_chunks (S i) rest st all_items (out ++ [JsonDecodeError i])%list
      | Raised =>
          process_chunks (S i) rest st all_items (out ++ [RequestFailed i])%list
      end
  end.

(** [process_pdf_chunks] on the chunks [chunk_pdf] returned for the
    document: the items of [final_output], and what was printed. *)
Definition process_pdf_chunks (chunks : list Chunk) : list LineItem * list Event :=
  let '(all_items, _, out) := process_chunks 0 chunks initial_state [] [] in
  (all_items, (out ++ [ProcessingComplete])%list).

(** The validated items a chunk contributes: none when its try block
    ends in a handler. *)
Definition chunk_items (chunk : Chunk) : list LineItem :=
  match extract_chunk chunk with
  | Structured items => items
  | DecodeFailed | Raised => []
  end.

Definition succeeded (chunk : Chunk) : bool :=
  match extract_chunk chunk with
  | Structured _ => true
  | DecodeFailed | Raised => false
  end.

(** The failure messages of the chunks, numbered from [i]. *)
Fixpoint failure_report (i : nat) (chunks : list Chunk) : list Event :=
  match chunks with
  | [] => []
  | chunk :: rest =>
      match extract_chunk chunk with
      | Structured _ => failure_report (S i) rest
      | DecodeFailed => JsonDecodeError i :: failure_report (S i) rest
      | Raised => RequestFailed i :: failure_report (S i) rest
      end
  end.

End Orchestrator.

Definition is_failure (e : Event) : bool :=
  match e with
  | JsonDecodeError _ | RequestFailed _ => true
  | UnitStateUpdated _ _ | ProcessingComplete => false
  end.

(** State carrier and corrector over a sequence of items, from the initial
    Carry State. *)
Definition corrected_items (items : list LineItem) : list LineItem :=
  fst (fst (process_items 0 items initial_state)).


(** ** Concrete rows used below *)

(** The seven fields neither correction pass is meant to write. *)
Definition same_text_fields (a b : LineItem) : Prop :=
  unit a = unit b /\ room a = room b /\ category a = category b /\
  serial a = serial b /\ description a = description b /\
  qty a = qty b /\ uom a = uom b.

Definition cost_row (r rm rp tx op tt : string) : LineItem :=
  mkLineItem "Unit 1101" "Kitchen" "Floor(s)" "591" "Remove carpet" "3.07" "SF"
    r rm rp tx op tt.

(** A row whose five last cost columns all read 7. *)
Definition sevens_row : LineItem := cost_row "1" "7" "7" "7" "7" "7".

(** A row with tax, oandp and total equal, before the duplicate pass. *)
Definition triple_row : LineItem := cost_row "0" "2" "3" "7" "7" "7".

(** A row with empty oandp and total and populated remove and replace. *)
Definition sparse_row : LineItem := cost_row "0" "1" "2" "0" "0" "0".

Definition zero_sum_row : LineItem := cost_row "4.00" "0" "0" "0" "0.00" "0.00".


(** ** Reading the state carrier field by field *)

(** The three fields the state carrier treats. *)
Inductive StickyField : Type := Unit | Room | Category.

Definition item_field (f : StickyField) (d : LineItem) : string :=
  match f with
  | Unit => unit d
  | Room => room d
  | Category => category d
  end.

Definition state_field (f : StickyField) (st : CarryState) : string :=
  match f with
  | Unit => last_unit st
  | Room => last_room st
  | Category => last_category st
  end.

Definition carried_item (i : nat) (d : LineItem) (st : CarryState) : LineItem :=
  fst (fst (carry_forward i d st)).

Definition carried_state (i : nat) (d : LineItem) (st : CarryState) : CarryState :=
  snd (fst (carry_forward i d st)).

(** A value that is empty, or reads unknown once trimmed and lower-cased. *)
Definition missing (v : string) : Prop :=
  v = EmptyString \/ lower (strip v) = "unknown".

(** The six cost columns. *)
Definition same_cost_fields (a b : LineItem) : Prop :=
  reset a = reset b /\ remove a = remove b /\ replace a = replace b /\
  tax a = tax b /\ oandp a = oandp b /\ total a = total b.

Fixpoint all_space (s : string) : bool :=
  match s with
  | EmptyString => true
  | String c s' => isspace c && all_space s'
  end.

Definition text_row (u r c : string) : LineItem :=
  mkLineItem u r c "591" "Remove carpet" "3.07" "SF" "0" "0" "1" "0" "0" "1".

(** A run of three chunks whose second request fails. *)
Module ThreeChunks.

Definition generate_content (chunk : nat) : option string :=
  match chunk with
  | 2 => None
  | _ => Some "{ }"
  end.

Definition json_loads (text : string) : option json :=
  Some (JObject [("items", JString text)]).

Definition BDRItems (members : list (string * json)) : option (list LineItem) :=
  Some [text_row "unknown" "Hall" "Walls"; text_row "Unit 7" "unknown" ""].

End ThreeChunks.

(** ** The shape of the lines the sanitizer rewrites *)

Fixpoint no_quote (s : string) : bool :=
  match s with
  | EmptyString => true
  | String c s' => negb (Ascii.eqb c dquote) && no_quote s'
  end.

(** The texts of the value group: escaped pairs and plain characters, no
    quote that is not escaped, no backslash left alone. *)
Inductive value_text : string -> Prop :=
| value_empty : value_text EmptyString
| value_escaped (c : ascii) (v : string) :
    ord c <> 10%N -> value_text v ->
    value_text (String backslash (String c v))
| value_plain (c : ascii) (v : string) :
    c <> dquote -> c <> backslash -> value_text v ->
    value_text (String c v).

(** The key part of a line: white space, a quoted non-empty key with no
    quote in it, white space, a colon, white space. *)
Definition key_part (key : string) : Prop :=
  exists w0 k w1 w2,
    all_space w0 = true /\ k <> EmptyString /\ no_quote k = true /\
    all_space w1 = true /\ all_space w2 = true /\
    key = w0 ++ String dquote (k ++ String dquote (w1 ++ String ":" w2)).

(** What may follow the closing quote of the value: white space around an
    optional comma. *)
Definition line_end (rest trailing : string) : Prop :=
  exists w3 w4,
    all_space w3 = true /\ all_space w4 = true /\
    (trailing = EmptyString \/ trailing = ",") /\
    rest = w3 ++ trailing ++ w4.

(** JSON string literals, after RFC 8259: a quote, then unescaped
    characters from code 32 up other than the quote and the backslash, or a
    backslash followed by one of the nine escape letters (four hexadecimal
    digits after u), then a quote and nothing more. *)
Definition is_hex (c : ascii) : bool :=
  in_range 48 57 c || in_range 65 70 c || in_range 97 102 c.

Definition is_escape_letter (c : ascii) : bool :=
  Ascii.eqb c dquote || Ascii.eqb c backslash || Ascii.eqb c "/" ||
  Ascii.eqb c "b" || Ascii.eqb c "f" || Ascii.eqb c "n" ||
  Ascii.eqb c "r" || Ascii.eqb c "t".

Fixpoint json_chars (s : string) : bool :=
  match s with
  | EmptyString => false
  | String c s' =>
      if Ascii.eqb c dquote then (s' =? EmptyString)
      else if Ascii.eqb c backslash then
        match s' with
        | String e s'' =>
            if is_escape_letter e then json_chars s''
            else if Ascii.eqb e "u" then
              match s'' with
              | String h1 (String h2 (String h3 (String h4 r))) =>
                  is_hex h1 && is_hex h2 && is_hex h3 && is_hex h4 && json_chars r
              | _ => false
              end
            else false
        | EmptyString => false
        end
      else (32 <=? ord c)%N && json_chars s'
  end.

Definition is_json_string (s : string) : bool :=
  match s with
  | String c s' => Ascii.eqb c dquote && json_chars s'
  | EmptyString => false
  end.

(** Lines of a response: a value with a raw TAB in it, and a value with a
    quote in it. *)
Definition key_description : string :=
  "  " ++ String dquote ("description" ++ String dquote ": ").

Definition tab_value : string := "Remove" ++ String "009"%char "carpet".

Definition tab_line : string :=
  key_description ++ String dquote (tab_value ++ String dquote " , ").

Definition pipe_value : string := "6" ++ String dquote " pipe".

Definition pipe_line : string :=
  key_description ++ String dquote (pipe_value ++ String dquote ",").

(** [c not in s] *)
Fixpoint lacks (c : ascii) (s : string) : bool :=
  match s with
  | EmptyString => true
  | String a s' => negb (Ascii.eqb a c) && lacks c s'
  end.

(** A response cut off before any closing brace. *)
Definition unclosed_text : string := "{ items: [ { unit: Unit 1101,".

(** Case analysis on the three tests of [carry_forward]. *)
Ltac carry_cases d st :=
  unfold carry_forward;
  let u := fresh "u" in let r := fresh "r" in let c := fresh "c" in
  destruct d as [u r c ? ? ? ? ? ? ? ? ? ?], st as [? ? ?]; cbn;
  destruct (lacks_value u); cbn; destruct (lacks_value r); cbn;
  destruct (lacks_value c); cbn.

(** ** PDF splitting *)

(** [l[start:stop]] on a list. *)
Definition list_slice {A : Type} (l : list A) (start stop : Z) : list A :=
  let len := Z.of_nat (List.length l) in
  let a := clamp_index len start in
  let b := clamp_index len stop in
  firstn (Z.to_nat (b - a)) (skipn (Z.to_nat a) l).

(** The number of elements of a range with a positive step. *)
Definition range_length (lo hi step : Z) : Z :=
  if (lo <? hi)%Z then ((hi - lo - 1) / step + 1)%Z else 0%Z.

(** [range(start, stop, step)]; [None] stands for the ValueError a zero
    step raises. *)
Definition py_range (start stop step : Z) : option (list Z) :=
  if (step =? 0)%Z then None
  else
    let n := if (0 <? step)%Z then range_length start stop step
             else range_length stop start (- step) in
    Some (map (fun j => (start + Z.of_nat j * step)%Z) (seq 0 (Z.to_nat n))).

Section Splitter.

(** The pages [PdfReader] gives, and what a [PdfWriter] holding a list of
    pages writes to the buffer. *)
Variable Page : Type.
Variable Buffer : Type.
Variable write_pages : list Page -> Buffer.

(** The pages added to the writer of each chunk. *)
Definition chunk_pages (pages : list Page) (pages_per_chunk : Z)
  : option (list (list Page)) :=
  match py_range 0 (Z.of_nat (List.length pages)) pages_per_chunk with
  | None => None
  | Some starts =>
      Some (map (fun i => list_slice pages i (i + pages_per_chunk)%Z) starts)
  end.

Definition chunk_pdf (pages : list Page) (pages_per_chunk : Z)
  : option (list Buffer) :=
  option_map (map write_pages) (chunk_pages pages pages_per_chunk).

End Splitter.

(** ** Texts of amounts *)

(** White space and commas only. *)
Fixpoint blank (s : string) : bool :=
  match s with
  | EmptyString => true
  | String c s' => (isspace c || Ascii.eqb c ",") && blank s'
  end.

Fixpoint all_digits (s : string) : bool :=
  match s with
  | EmptyString => true
  | String c s' => is_digit c && all_digits s'
  end.

(** The number a run of digits writes, after the digits of [acc]. *)
Fixpoint digits_from (acc : Z) (s : string) : Z :=
  match s with
  | EmptyString => acc
  | String c s' => digits_from (10 * acc + digit_val c)%Z s'
  end.

(** Digits and the decimal point. *)
Definition amount_char (c : ascii) : bool := is_digit c || Ascii.eqb c ".".

Fixpoint amount_text (s : string) : bool :=
  match s with
  | EmptyString => true
  | String c s' => amount_char c && amount_text s'
  end.

(** Every character is the digit 0. *)
Fixpoint all_zeros (s : string) : bool :=
  match s with
  | EmptyString => true
  | String c s' => Ascii.eqb c "0" && all_zeros s'
  end.

Fixpoint all_chars (p : ascii -> bool) (s : string) : bool :=
  match s with
  | EmptyString => true
  | String c s' => p c && all_chars p s'
  end.

(** The characters a text can hold and still be read as a number: digits,
    white space, signs, the point, the exponent letter, the underscore,
    the comma, and the letters of inf, infinity and nan. *)
Definition float_char (c : ascii) : bool :=
  is_digit c || isspace c || negb (lacks c "+-.eE_,iInNfFtTyYaA").

Definition word_char (c : ascii) : bool := negb (lacks c "infatyn").

(** ** Repeated correction *)

(** The first [k] of remove, replace, tax and oandp read 0. *)
Definition zeros_upto (k : nat) (item : LineItem) : Prop :=
  (1 <= k -> remove item = "0") /\ (2 <= k -> replace item = "0") /\
  (3 <= k -> tax item = "0") /\ (4 <= k -> oandp item = "0").

(** ** Lines the sanitizer leaves alone *)

(** The text is empty, or starts with a character that is neither white
    space nor a quote. *)
Definition starts_unquoted (r : string) : bool :=
  match r with
  | EmptyString => true
  | String c _ => negb (isspace c) && negb (Ascii.eqb c dquote)
  end.

(** A member line with a number for value. *)
Definition qty_line : string :=
  "  " ++ String dquote ("qty" ++ String dquote ": 3.07,").

(** No line boundary of [str.splitlines] in the text. *)
Definition break_free (s : string) : bool :=
  all_chars (fun c => negb (is_linebreak c)) s.

(** The only line boundaries in the text are line feeds. *)
Definition only_line_feeds (s : string) : bool :=
  all_chars (fun c => negb (is_linebreak c) || (ord c =? 10)%N) s.

(** Printable ASCII. *)
Definition printable (c : ascii) : bool := in_range 32 126 c.

(** ** What the output holds in the sticky fields *)

(** The literal sentinel, or a value the state carrier takes as given. *)
Definition resolved (v : string) : Prop := v = "unknown" \/ ~ missing v.

(** The fields no step of the item loop writes. *)
Definition row_text (d : LineItem) : string * string * string * string :=
  (serial d, description d, qty d, uom d).

(** ** The run, item by item *)

(** The Carry State after the state carrier has gone through a sequence of
    items, from the initial state. *)
Definition state_after (items : list LineItem) : CarryState :=
  fold_left (fun st d => carried_state 0 d st) items initial_state.

(** ** Texts cut into lines *)

(** One line boundary: a boundary character, or a carriage return with a
    line feed after it. *)
Definition is_boundary (b : string) : bool :=
  match b with
  | String c EmptyString => is_linebreak c
  | String c (String c' EmptyString) => (ord c =? 13)%N && (ord c' =? 10)%N
  | _ => false
  end.

(** A lone carriage return is not followed by a line feed (the two would
    be one boundary). *)
Definition cr_safe (b rest : string) : bool :=
  match b, rest with
  | String c EmptyString, String c' _ => negb ((ord c =? 13)%N && (ord c' =? 10)%N)
  | _, _ => true
  end.

(** The text made of lines, each with the boundary that ends it, and of a
    last line with no boundary after it. *)
Fixpoint lines_text (parts : list (string * string)) (last : string) : string :=
  match parts with
  | [] => last
  | (l, b) :: rest => l ++ b ++ lines_text rest last
  end.

Fixpoint well_split (parts : list (string * string)) (last : string) : bool :=
  match parts with
  | [] => break_free last
  | (l, b) :: rest =>
      break_free l && is_boundary b && cr_safe b (lines_text rest last)
      && well_split rest last
  end.

(** Two lines with a CR LF pair between them, and a line feed at the
    end. *)
Definition crlf_parts : list (string * string) :=
  [("{", String "013" (String "010" EmptyString)); ("}", String "010" EmptyString)].
(** ** Column-shift corrector: proofs *)

Lemma shift_on_dup_cond_b (item : LineItem) :
  shift_on_dup item =
  if cond_b item then shift_right (set_reset "0" item) else item.
Proof. reflexivity. Qed.

Lemma shift_on_dup_noop (item : LineItem) :
  cond_b item = false -> shift_on_dup item = item.
Proof. intros H. rewrite shift_on_dup_cond_b, H. reflexivity. Qed.

Lemma fix_shift_noop (item : LineItem) :
  _needs_left_shift item = false -> fix_shift item = item.
Proof. unfold fix_shift. intros ->. reflexivity. Qed.

Lemma needs_left_shift_false (item : LineItem) :
  _needs_left_shift item = false <->
  cond_a item = false /\ cond_b item = false /\
  cond_c item = false /\ cond_d item = false.
Proof.
  unfold _needs_left_shift.
  destruct (cond_a item), (cond_b item), (cond_c item), (cond_d item);
    simpl; intuition congruence.
Qed.

Lemma needs_left_shift_true (item : LineItem) :
  _needs_left_shift item = true <->
  cond_a item = true \/ cond_b item = true \/
  cond_c item = true \/ cond_d item = true.
Proof.
  unfold _needs_left_shift.
  destruct (cond_a item), (cond_b item), (cond_c item), (cond_d item);
    simpl; intuition congruence.
Qed.

(** The five sequential assignments amount to the simultaneous relabelling:
    no assignment reads a field an earlier one has overwritten. *)
Lemma shift_right_fields (item : LineItem) :
  shift_right item =
  mkLineItem (unit item) (room item) (category item) (serial item)
    (description item) (qty item) (uom item)
    (reset item) "0" (remove item) (replace item) (tax item) (oandp item).
Proof. reflexivity. Qed.

Lemma zero_text_not_positive : gt0 (_to_num "0") = false.
Proof. vm_compute. reflexivity. Qed.

Lemma zero_text_is_zero : eq0 (_to_num "0") = true.
Proof. vm_compute. reflexivity. Qed.

(** A relabelling that changes nothing happens on an all-zero row only, and
    no condition holds there. *)
Lemma shift_right_fixed_point (item : LineItem) :
  shift_right item = item -> _needs_left_shift item = false.
Proof.
  rewrite shift_right_fields. destruct item as [u r c s d q m rs rm rp tx op tt].
  simpl. intros H. injection H as Hrm Hrp Htx Hop Htt.
  rewrite <- Hrm in Hrp. rewrite <- Hrp in Htx. rewrite <- Htx in Hop.
  rewrite <- Hop in Htt.
  apply needs_left_shift_false.
  unfold cond_a, cond_b, cond_c, cond_d; simpl.
  rewrite <- Hrm, <- Htx, <- Hop, <- Htt, zero_text_not_positive.
  repeat rewrite Bool.andb_false_r. auto.
Qed.

Lemma fix_shift_changes (item : LineItem) :
  _needs_left_shift item = true -> fix_shift item <> item.
Proof.
  intros H E. unfold fix_shift in E. rewrite H in E.
  apply shift_right_fixed_point in E. congruence.
Qed.

Lemma same_text_fields_trans (a b c : LineItem) :
  same_text_fields a b -> same_text_fields b c -> same_text_fields a c.
Proof.
  unfold same_text_fields. intros H1 H2.
  repeat match goal with H : _ /\ _ |- _ => destruct H end.
  repeat split; congruence.
Qed.

Lemma correct_item_changes (item : LineItem) :
  _needs_left_shift item = true -> correct_item item <> item.
Proof.
  intros H. unfold correct_item. rewrite shift_on_dup_cond_b.
  destruct (cond_b item) eqn:Hb.
  - assert (Hz : total item = "0" -> False).
    { intros Ht. unfold cond_b in Hb. rewrite Ht, zero_text_not_positive in Hb.
      rewrite Bool.andb_false_r in Hb. discriminate. }
    unfold fix_shift.
    destruct (_needs_left_shift (shift_right (set_reset "0" item)));
      rewrite ?shift_right_fields; destruct item as [u r c s d q m rs rm rp tx op tt];
      simpl in *; intros E; injection E as _ Hrm Hrp Htx Hop Htt; apply Hz; congruence.
  - now apply fix_shift_changes.
Qed.

(** C1 (counterexample): on the row whose last five cost columns all read 7,
    a second application of the corrector changes the corrected row. *)
Lemma corrector_not_idempotent :
  correct_item (correct_item sevens_row) <> correct_item sevens_row.
Proof. vm_compute. discriminate. Qed.

(** C1 (amended): each pass returns its input when its trigger does not hold
    on it; and a second application of the corrector returns the corrected
    item exactly when none of conditions a to d holds on the corrected
    item. *)
Theorem corrector_idempotent_when_settled (item : LineItem) :
  (cond_b item = false -> shift_on_dup item = item) /\
  (_needs_left_shift item = false -> fix_shift item = item) /\
  (_needs_left_shift (correct_item item) = false ->
     correct_item (correct_item item) = correct_item item) /\
  (_needs_left_shift (correct_item item) = true ->
     correct_item (correct_item item) <> correct_item item).
Proof.
  split; [apply shift_on_dup_noop|].
  split; [apply fix_shift_noop|].
  split.
  - intros H. unfold correct_item at 1.
    rewrite shift_on_dup_noop by (apply needs_left_shift_false in H; tauto).
    now apply fix_shift_noop.
  - apply correct_item_changes.
Qed.

Lemma corrector_idempotent_when_settled_witness :
  correct_item (correct_item sparse_row) = correct_item sparse_row.
Proof.
  apply (corrector_idempotent_when_settled sparse_row).
  vm_compute. reflexivity.
Defined.

(** C4 (counterexample): after the duplicate pass has run on a row with
    tax, oandp and total equal, none of conditions a, c and d holds, yet the
    safety net relabels the row once more. *)
Lemma safety_net_fires_on_duplicate_alone :
  cond_a (shift_on_dup triple_row) = false /\
  cond_c (shift_on_dup triple_row) = false /\
  cond_d (shift_on_dup triple_row) = false /\
  fix_shift (shift_on_dup triple_row) = shift_right (shift_on_dup triple_row) /\
  fix_shift (shift_on_dup triple_row) <> shift_on_dup triple_row.
Proof. vm_compute. repeat split; discriminate. Qed.

(** C4 (amended): the safety-net pass performs the rightward relabelling
    (total gets oandp, oandp gets tax, tax gets replace, replace gets
    remove, remove becomes 0) exactly when one of conditions a, b, c or d
    holds on the item it is given, and it never modifies reset; the
    duplicate pass fires on condition b only and also sets reset to 0. *)
Theorem safety_net_fires_on_any_condition (item : LineItem) :
  (cond_a item = true \/ cond_b item = true \/
   cond_c item = true \/ cond_d item = true ->
     fix_shift item =
       mkLineItem (unit item) (room item) (category item) (serial item)
         (description item) (qty item) (uom item)
         (reset item) "0" (remove item) (replace item) (tax item) (oandp item)
     /\ fix_shift item <> item) /\
  (cond_a item = false -> cond_b item = false ->
   cond_c item = false -> cond_d item = false -> fix_shift item = item) /\
  reset (fix_shift item) = reset item /\
  (cond_b item = true ->
     shift_on_dup item =
       mkLineItem (unit item) (room item) (category item) (serial item)
         (description item) (qty item) (uom item)
         "0" "0" (remove item) (replace item) (tax item) (oandp item)) /\
  (cond_b item = false -> shift_on_dup item = item).
Proof.
  repeat split.
  - apply needs_left_shift_true in H. unfold fix_shift. now rewrite H.
  - apply fix_shift_changes. now apply needs_left_shift_true.
  - intros. apply fix_shift_noop, needs_left_shift_false. auto.
  - unfold fix_shift. now destruct (_needs_left_shift item).
  - intros H. rewrite shift_on_dup_cond_b, H. reflexivity.
  - apply shift_on_dup_noop.
Qed.

Lemma safety_net_fires_on_any_condition_witness :
  fix_shift (shift_on_dup triple_row) = cost_row "0" "0" "0" "2" "3" "7"
  /\ fix_shift (shift_on_dup triple_row) <> shift_on_dup triple_row.
Proof.
  apply (safety_net_fires_on_any_condition (shift_on_dup triple_row)).
  right; left. vm_compute. reflexivity.
Defined.

(** C5 (counterexample): oandp and total are both 0 on this row, yet
    condition d holds and the corrector changes the row. *)
Lemma zero_totals_row_still_shifted :
  eq0 (_to_num (oandp sparse_row)) = true /\
  eq0 (_to_num (total sparse_row)) = true /\
  cond_d sparse_row = true /\
  _needs_left_shift sparse_row = true /\
  correct_item sparse_row <> sparse_row.
Proof. vm_compute. repeat split; discriminate. Qed.

(** C5 (amended): when oandp and total both have numeric value 0,
    conditions a and b do not hold and the duplicate pass leaves the item
    unchanged; the corrector leaves it unchanged when conditions c and d do
    not hold either, and in particular when all six cost columns read 0. *)
Theorem zero_totals_not_flagged_by_a_or_b (item : LineItem) :
  eq0 (_to_num (oandp item)) = true ->
  eq0 (_to_num (total item)) = true ->
  cond_a item = false /\ cond_b item = false /\
  shift_on_dup item = item /\
  (cond_c item = false -> cond_d item = false -> correct_item item = item) /\
  (reset item = "0" -> remove item = "0" -> replace item = "0" ->
   tax item = "0" -> oandp item = "0" -> total item = "0" ->
   _needs_left_shift item = false /\ correct_item item = item).
Proof.
  intros Ho Ht.
  assert (Hgt : forall x, eq0 x = true -> gt0 x = false).
  { intros [|n|n m e]; simpl; try discriminate. intros ->.
    now rewrite Bool.andb_false_r. }
  assert (Ha : cond_a item = false).
  { unfold cond_a. rewrite (Hgt _ Ho). apply Bool.andb_false_r. }
  assert (Hb : cond_b item = false).
  { unfold cond_b. rewrite (Hgt _ Ht). apply Bool.andb_false_r. }
  assert (Hn : cond_c item = false -> cond_d item = false ->
               correct_item item = item).
  { intros Hc Hd. unfold correct_item. rewrite (shift_on_dup_noop _ Hb).
    apply fix_shift_noop, needs_left_shift_false. auto. }
  repeat split; auto using shift_on_dup_noop.
  - apply needs_left_shift_false. repeat split; auto.
    + unfold cond_c. rewrite H2, zero_text_not_positive. apply Bool.andb_false_r.
    + unfold cond_d. rewrite H0, zero_text_not_positive.
      now rewrite Bool.andb_false_r.
  - apply Hn.
    + unfold cond_c. rewrite H2, zero_text_not_positive. apply Bool.andb_false_r.
    + unfold cond_d. rewrite H0, zero_text_not_positive.
      now rewrite Bool.andb_false_r.
Qed.

Lemma zero_totals_not_flagged_by_a_or_b_witness :
  cond_a zero_sum_row = false /\ cond_b zero_sum_row = false /\
  shift_on_dup zero_sum_row = zero_sum_row /\
  correct_item zero_sum_row = zero_sum_row.
Proof.
  destruct (zero_totals_not_flagged_by_a_or_b zero_sum_row)
    as (Ha & Hb & Hd & Hc & _); [vm_compute; reflexivity ..|].
  refine (conj Ha (conj Hb (conj Hd (Hc _ _)))); vm_compute; reflexivity.
Defined.

(** C6: on the row with reset 0, remove 5.00, replace 10.00, tax 0, oandp
    10.00 and total 10.00, condition b holds and the corrector (duplicate
    pass, then safety net) returns reset 0, remove 0, replace 5.00, tax
    10.00, oandp 0, total 10.00, whatever the other seven fields are, which
    it returns unchanged. *)
Theorem duplicate_row_corrected (u r c s d q m : string) :
  let item := mkLineItem u r c s d q m "0" "5.00" "10.00" "0" "10.00" "10.00" in
  let fixed := mkLineItem u r c s d q m "0" "0" "5.00" "10.00" "0" "10.00" in
  cond_b item = true /\
  shift_on_dup item = fixed /\
  _needs_left_shift fixed = false /\
  correct_item item = fixed.
Proof. vm_compute. repeat split. Qed.

(** C9: neither pass changes unit, room, category, serial, description, qty
    or uom; the safety net also returns reset as it was, and when the
    duplicate pass changes reset it sets it to 0. *)
Theorem passes_keep_text_fields (item : LineItem) :
  same_text_fields (shift_on_dup item) item /\
  same_text_fields (fix_shift item) item /\
  reset (fix_shift item) = reset item /\
  (reset (shift_on_dup item) = reset item \/ reset (shift_on_dup item) = "0") /\
  same_text_fields (correct_item item) item.
Proof.
  assert (D : same_text_fields (shift_on_dup item) item).
  { rewrite shift_on_dup_cond_b. destruct (cond_b item); repeat split. }
  assert (F : forall x, same_text_fields (fix_shift x) x).
  { intros x. unfold fix_shift. destruct (_needs_left_shift x); repeat split. }
  split; [exact D|]. split; [apply F|]. split; [|split].
  - unfold fix_shift. now destruct (_needs_left_shift item).
  - rewrite shift_on_dup_cond_b. destruct (cond_b item); auto.
  - exact (same_text_fields_trans _ _ _ (F (shift_on_dup item)) D).
Qed.

(** ** State carrier: proofs *)

Lemma lacks_value_spec (v : string) : lacks_value v = true <-> missing v.
Proof.
  unfold lacks_value, missing.
  rewrite Bool.orb_true_iff, !String.eqb_eq. reflexivity.
Qed.

Lemma lacks_value_false (v : string) : lacks_value v = false <-> ~ missing v.
Proof.
  rewrite <- lacks_value_spec. destruct (lacks_value v); intuition congruence.
Qed.

Lemma lstrip_all_space (s : string) : all_space s = true -> lstrip s = EmptyString.
Proof.
  induction s as [|c s IH]; simpl; [reflexivity|].
  intros H. apply Bool.andb_true_iff in H as [Hc Hs]. rewrite Hc. auto.
Qed.

Lemma strip_all_space (s : string) : all_space s = true -> strip s = EmptyString.
Proof. intros H. unfold strip. now rewrite lstrip_all_space. Qed.

(** What [carry_forward] does to one field, whatever the other two hold. *)
Lemma carry_forward_field (f : StickyField) (i : nat) (d : LineItem) (st : CarryState) :
  (item_field f (carried_item i d st), state_field f (carried_state i d st)) =
  if lacks_value (item_field f d)
  then (state_field f st, state_field f st)
  else (item_field f d, item_field f d).
Proof.
  unfold carried_item, carried_state, carry_forward.
  destruct d as [u r c s ds q m rs rm rp tx op tt], st as [lu lr lc]; simpl.
  destruct f; cbn;
    destruct (lacks_value u); cbn; destruct (lacks_value r); cbn;
    destruct (lacks_value c); reflexivity.
Qed.

(** C7: for each of unit, room and category on its own: a value that is
    empty, or equals unknown once trimmed and lower-cased, is replaced by
    the Carry State's value for that field, which stays as it was;
    any other value is kept and becomes the Carry State's value for the
    field, so that an item processed next which lacks the field receives
    it.  No other field of the item is touched. *)
Theorem state_carrier_per_field (f : StickyField) (i : nat) (d : LineItem) (st : CarryState) :
  (missing (item_field f d) ->
     item_field f (carried_item i d st) = state_field f st /\
     state_field f (carried_state i d st) = state_field f st) /\
  (~ missing (item_field f d) ->
     item_field f (carried_item i d st) = item_field f d /\
     state_field f (carried_state i d st) = item_field f d /\
     forall j d2, missing (item_field f d2) ->
       item_field f (carried_item j d2 (carried_state i d st)) = item_field f d) /\
  serial (carried_item i d st) = serial d /\
  description (carried_item i d st) = description d /\
  qty (carried_item i d st) = qty d /\
  uom (carried_item i d st) = uom d /\
  same_cost_fields (carried_item i d st) d.
Proof.
  pose proof (carry_forward_field f i d st) as E.
  split; [|split].
  - intros H. apply lacks_value_spec in H. rewrite H in E.
    injection E as E1 E2. auto.
  - intros H. apply lacks_value_false in H. rewrite H in E.
    injection E as E1 E2. repeat split; auto.
    intros j d2 H2. apply lacks_value_spec in H2.
    pose proof (carry_forward_field f j d2 (carried_state i d st)) as E'.
    rewrite H2 in E'. injection E' as E3 _. congruence.
  - unfold carried_item, carry_forward, same_cost_fields.
    destruct d as [u r c s ds q m rs rm rp tx op tt], st as [lu lr lc]; simpl.
    destruct (lacks_value u); cbn; destruct (lacks_value r); cbn;
      destruct (lacks_value c); cbn; repeat split.
Qed.

Lemma state_carrier_per_field_witness :
  unit (carried_item 0 (text_row "UNKNOWN " "Hall" "") initial_state) = "unknown"
  /\ room (carried_item 0 (text_row "UNKNOWN " "Hall" "") initial_state) = "Hall"
  /\ last_room (carried_state 0 (text_row "UNKNOWN " "Hall" "") initial_state) = "Hall".
Proof.
  split.
  - apply (state_carrier_per_field Unit 0 (text_row "UNKNOWN " "Hall" "") initial_state).
    right. vm_compute. reflexivity.
  - destruct (state_carrier_per_field Room 0 (text_row "UNKNOWN " "Hall" "") initial_state)
      as (_ & H & _).
    destruct H as (H1 & H2 & _); [|exact (conj H1 H2)].
    intros [H|H]; vm_compute in H; discriminate.
Defined.

(** The units of the spec's example sequence: a fresh value, then unknown,
    then the empty string. *)
Example carried_units_example :
  let '(fixed, st, _) :=
    process_items 0 [text_row "Unit 1101" "Hall" "Floor(s)";
                     text_row "unknown" "Hall" "Floor(s)";
                     text_row "" "Hall" "Floor(s)"] initial_state in
  map unit fixed = ["Unit 1101"; "Unit 1101"; "Unit 1101"]
  /\ last_unit st = "Unit 1101".
Proof. vm_compute. split; reflexivity. Qed.

(** C10: a unit, room or category value that is not empty but made of white
    space only is not treated as missing: trimmed and lower-cased it is the
    empty string, which is not unknown, and the emptiness test looks at the
    untrimmed value; so the value stays on the item and becomes the Carry
    State's value for the field. *)
Theorem whitespace_value_is_authoritative
  (f : StickyField) (i : nat) (d : LineItem) (st : CarryState) :
  item_field f d <> EmptyString ->
  all_space (item_field f d) = true ->
  lower (strip (item_field f d)) = EmptyString /\
  lacks_value (item_field f d) = false /\
  item_field f (carried_item i d st) = item_field f d /\
  state_field f (carried_state i d st) = item_field f d.
Proof.
  intros Hne Hsp.
  assert (Hl : lower (strip (item_field f d)) = EmptyString)
    by now rewrite strip_all_space.
  assert (Hv : lacks_value (item_field f d) = false).
  { unfold lacks_value. rewrite Hl.
    apply String.eqb_neq in Hne. rewrite Hne. reflexivity. }
  pose proof (carry_forward_field f i d st) as E. rewrite Hv in E.
  injection E as E1 E2. auto.
Qed.

Lemma whitespace_value_is_authoritative_witness :
  unit (carried_item 2 (text_row "  " "Hall" "Walls") initial_state) = "  "
  /\ last_unit (carried_state 2 (text_row "  " "Hall" "Walls") initial_state) = "  ".
Proof.
  destruct (whitespace_value_is_authoritative Unit 2
              (text_row "  " "Hall" "Walls") initial_state)
    as (_ & _ & H1 & H2).
  - simpl. discriminate.
  - reflexivity.
  - exact (conj H1 H2).
Defined.

(** ** Chunk orchestrator: proofs *)

(** The chunk number only shows in what is printed. *)
Lemma carry_forward_index (i j : nat) (d : LineItem) (st : CarryState) :
  fst (carry_forward i d st) = fst (carry_forward j d st).
Proof. carry_cases d st; reflexivity. Qed.

Lemma carry_forward_quiet (i : nat) (d : LineItem) (st : CarryState) :
  filter is_failure (snd (carry_forward i d st)) = [].
Proof. carry_cases d st; reflexivity. Qed.

Section OrchestratorProofs.

Variable Chunk : Type.
Variable generate_content : Chunk -> option string.
Variable json_loads : string -> option json.
Variable BDRItems : list (string * json) -> option (list LineItem).

Local Abbreviation extract := (extract_chunk Chunk generate_content json_loads BDRItems).
Local Abbreviation items_of := (chunk_items Chunk generate_content json_loads BDRItems).
Local Abbreviation ok := (succeeded Chunk generate_content json_loads BDRItems).
Local Abbreviation loop := (process_chunks Chunk generate_content json_loads BDRItems).
Local Abbreviation run := (process_pdf_chunks Chunk generate_content json_loads BDRItems).
Local Abbreviation report := (failure_report Chunk generate_content json_loads BDRItems).

Lemma process_items_index (i j : nat) (items : list LineItem) (st : CarryState) :
  fst (process_items i items st) = fst (process_items j items st).
Proof.
  revert st. induction items as [|it rest IH]; intros st; simpl; [reflexivity|].
  pose proof (carry_forward_index i j it st) as E.
  destruct (carry_forward i it st) as [[d1 s1] o1],
           (carry_forward j it st) as [[d2 s2] o2].
  simpl in E. injection E as -> ->.
  specialize (IH s2).
  destruct (process_items i rest s2) as [[f1 t1] p1],
           (process_items j rest s2) as [[f2 t2] p2].
  simpl in *. injection IH as -> ->. reflexivity.
Qed.

(** The item loop over two lists in a row is the item loop over their
    concatenation. *)
Lemma process_items_app (i : nat) (l1 l2 : list LineItem) (st : CarryState) :
  fst (process_items i (l1 ++ l2)%list st) =
  ((fst (fst (process_items i l1 st)) ++
    fst (fst (process_items i l2 (snd (fst (process_items i l1 st))))))%list,
   snd (fst (process_items i l2 (snd (fst (process_items i l1 st)))))).
Proof.
  revert st. induction l1 as [|it rest IH]; intros st; simpl.
  - now destruct (process_items i l2 st) as [[f t] p].
  - destruct (carry_forward i it st) as [[d s1] o1].
    specialize (IH s1).
    destruct (process_items i (rest ++ l2)%list s1) as [[f t] p].
    destruct (process_items i rest s1) as [[f1 t1] p1].
    simpl in *. injection IH as -> ->. reflexivity.
Qed.

Lemma process_items_quiet (i : nat) (items : list LineItem) (st : CarryState) :
  filter is_failure (snd (process_items i items st)) = [].
Proof.
  revert st. induction items as [|it rest IH]; intros st; simpl; [reflexivity|].
  pose proof (carry_forward_quiet i it st) as E.
  destruct (carry_forward i it st) as [[d s1] o1].
  specialize (IH s1). destruct (process_items i rest s1) as [[f t] p].
  simpl in *. now rewrite filter_app, E, IH.
Qed.

Lemma process_chunks_items (chunks : list Chunk) :
  forall i st all_items out,
    fst (fst (loop i chunks st all_items out)) =
    (all_items ++
     fst (fst (process_items 0 (flat_map items_of chunks) st)))%list.
Proof.
  induction chunks as [|chunk rest IH]; intros i st all_items out; simpl.
  - now rewrite app_nil_r.
  - unfold chunk_items at 1. destruct (extract chunk) as [items| |]; simpl.
    + pose proof (process_items_app 0 items (flat_map items_of rest) st) as A.
      pose proof (process_items_index i 0 items st) as I.
      destruct (process_items i items st) as [[fixed st'] out'].
      rewrite IH.
      destruct (process_items 0 (items ++ flat_map items_of rest)%list st)
        as [[f t] p].
      destruct (process_items 0 items st) as [[f0 t0] p0].
      simpl in *. injection I as -> ->. injection A as -> _.
      now rewrite app_assoc.
    + apply IH.
    + apply IH.
Qed.

Lemma process_chunks_report (chunks : list Chunk) :
  forall i st all_items out,
    filter is_failure (snd (loop i chunks st all_items out)) =
    (filter is_failure out ++ report i chunks)%list.
Proof.
  induction chunks as [|chunk rest IH]; intros i st all_items out; simpl.
  - now rewrite app_nil_r.
  - destruct (extract chunk) as [items| |].
    + pose proof (process_items_quiet i items st) as Q.
      destruct (process_items i items st) as [[fixed st'] out'].
      rewrite IH, filter_app. simpl in Q. now rewrite Q, app_nil_r.
    + rewrite IH, filter_app. simpl. now rewrite <- app_assoc.
    + rewrite IH, filter_app. simpl. now rewrite <- app_assoc.
Qed.

Lemma items_of_succeeded (chunks : list Chunk) :
  flat_map items_of (filter ok chunks) = flat_map items_of chunks.
Proof.
  induction chunks as [|chunk rest IH]; simpl; [reflexivity|].
  destruct (ok chunk) eqn:K; simpl; rewrite IH; [reflexivity|].
  unfold succeeded in K. unfold chunk_items at 2.
  destruct (extract chunk); [discriminate|reflexivity..].
Qed.

Lemma in_failure_report (chunks : list Chunk) :
  forall i e,
    In e (report i chunks) <->
    exists n chunk,
      nth_error chunks n = Some chunk /\
      ((extract chunk = Raised /\ e = RequestFailed (i + n)) \/
       (extract chunk = DecodeFailed /\ e = JsonDecodeError (i + n))).
Proof.
  induction chunks as [|c rest IH]; intros i e; simpl.
  - split; [tauto|]. intros (n & chunk & H & _). destruct n; discriminate.
  - split.
    + assert (T : In e (report (S i) rest) ->
                  exists n chunk,
                    nth_error (c :: rest) n = Some chunk /\
                    ((extract chunk = Raised /\ e = RequestFailed (i + n)) \/
                     (extract chunk = DecodeFailed /\ e = JsonDecodeError (i + n)))).
      { intros H. apply IH in H. destruct H as (n & chunk & Hn & H).
        exists (S n), chunk. split; [exact Hn|].
        replace (i + S n) with (S i + n) by lia. exact H. }
      intros H. destruct (extract c) eqn:E.
      * auto.
      * destruct H as [H|H]; [|auto]. exists 0, c. split; [reflexivity|].
        right. rewrite Nat.add_0_r. auto.
      * destruct H as [H|H]; [|auto]. exists 0, c. split; [reflexivity|].
        left. rewrite Nat.add_0_r. auto.
    + intros (n & chunk & Hn & H). destruct n as [|n]; simpl in Hn.
      * injection Hn as ->. rewrite Nat.add_0_r in H.
        destruct H as [[E ->]|[E ->]]; rewrite E; left; reflexivity.
      * assert (R : In e (report (S i) rest)).
        { apply IH. exists n, chunk. split; [exact Hn|].
          replace (S i + n) with (i + S n) by lia. exact H. }
        destruct (extract c); simpl; auto.
Qed.

(** The run in terms of the outcome of each chunk. *)
Lemma run_by_outcome (chunks : list Chunk) :
  fst (run chunks) = corrected_items (flat_map items_of chunks) /\
  fst (run chunks) = fst (run (filter ok chunks)) /\
  List.length (fst (run chunks)) = List.length (flat_map items_of chunks) /\
  filter is_failure (snd (run chunks)) = report 0 chunks /\
  (forall n chunk, nth_error chunks n = Some chunk ->
     (extract chunk = Raised <-> In (RequestFailed n) (snd (run chunks))) /\
     (extract chunk = DecodeFailed <-> In (JsonDecodeError n) (snd (run chunks)))).
Proof.
  assert (E : forall l, fst (run l) = corrected_items (flat_map items_of l)).
  { intros l. unfold process_pdf_chunks.
    pose proof (process_chunks_items l 0 initial_state [] []) as H.
    destruct (loop 0 l initial_state [] []) as [[a s] o]. exact H. }
  assert (R : filter is_failure (snd (run chunks)) = report 0 chunks).
  { unfold process_pdf_chunks.
    pose proof (process_chunks_report chunks 0 initial_state [] []) as H.
    destruct (loop 0 chunks initial_state [] []) as [[a s] o].
    simpl in *. rewrite filter_app, H. simpl. now rewrite app_nil_r. }
  split; [apply E|]. split; [now rewrite !E, items_of_succeeded|].
  split; [|split; [exact R|]].
  - rewrite E. unfold corrected_items. generalize initial_state.
    induction (flat_map items_of chunks) as [|it l IH]; intros st; simpl; auto.
    destruct (carry_forward 0 it st) as [[d s1] o1]. specialize (IH s1).
    destruct (process_items 0 l s1) as [[f t] p]. simpl in *. now rewrite IH.
  - intros n chunk Hn.
    assert (U : forall e, is_failure e = true ->
                  (In e (snd (run chunks)) <-> In e (report 0 chunks))).
    { intros e He. rewrite <- R, filter_In. tauto. }
    split; (rewrite U by reflexivity); rewrite in_failure_report; simpl; split.
    + intros X. exists n, chunk. auto.
    + intros (n' & chunk' & Hn' & [[X H]|[X H]]); [|discriminate].
      injection H as <-. congruence.
    + intros X. exists n, chunk. auto.
    + intros (n' & chunk' & Hn' & [[X H]|[X H]]); [discriminate|].
      injection H as <-. congruence.
Qed.

(** The item at each place of the item loop's output: the item at that
    place of the input, given the Carry State the items before it leave,
    then corrected by both passes. *)
Lemma process_items_nth (items : list LineItem) :
  forall st k d, nth_error items k = Some d ->
    nth_error (fst (fst (process_items 0 items st))) k =
    Some (correct_item
            (carried_item 0 d
               (fold_left (fun s x => carried_state 0 x s) (firstn k items) st))).
Proof.
  induction items as [|a rest IH]; intros st k d H.
  - destruct k; discriminate.
  - unfold carried_item, carried_state in *. cbn [process_items].
    destruct (carry_forward 0 a st) as [[d1 s1] o1] eqn:E.
    specialize (IH s1).
    destruct (process_items 0 rest s1) as [[fx s2] o2]. cbn [fst snd] in *.
    destruct k as [|k]; cbn [nth_error firstn fold_left] in *.
    + injection H as <-. rewrite E. reflexivity.
    + rewrite E. cbn [fst snd]. now apply IH.
Qed.

(** What a chunk contributes, read off the collaborators' answers. *)
Lemma chunk_outcome (chunk : Chunk) :
  match generate_content chunk with
  | None => extract chunk = Raised
  | Some text =>
      match json_loads (clean_json_string text) with
      | None => extract chunk = DecodeFailed
      | Some (JObject members) | Some (JArray (JObject members :: _)) =>
          match BDRItems members with
          | Some items => extract chunk = Structured items
          | None => extract chunk = Raised
          end
      | Some _ => extract chunk = Raised
      end
  end.
Proof.
  unfold extract_chunk.
  destruct (generate_content chunk) as [text|]; [|reflexivity].
  destruct (json_loads (clean_json_string text)) as [doc|]; [|reflexivity].
  destruct doc as [| | | |[|[]]|]; try reflexivity;
    match goal with |- context [BDRItems ?m] => destruct (BDRItems m) end;
    reflexivity.
Qed.


End OrchestratorProofs.


(** Three chunks, the second request fails: the output holds the items of
    the first and the third chunk, in that order, the second item of each
    chunk inheriting nothing from the lost chunk. *)
Example second_chunk_lost :
  let run := process_pdf_chunks nat ThreeChunks.generate_content
               ThreeChunks.json_loads ThreeChunks.BDRItems in
  map unit (fst (run [1; 2; 3])) = ["unknown"; "Unit 7"; "Unit 7"; "Unit 7"]
  /\ fst (run [1; 2; 3]) = fst (run [1; 3])
  /\ filter is_failure (snd (run [1; 2; 3])) = [RequestFailed 1].
Proof. vm_compute. repeat split. Qed.

(** ** Response sanitizer: proofs *)

Lemma append_assoc (a b c : string) : (a ++ b) ++ c = a ++ (b ++ c).
Proof. induction a as [|x a IH]; simpl; [reflexivity|now rewrite IH]. Qed.

Lemma append_empty_r (a : string) : a ++ EmptyString = a.
Proof. induction a as [|x a IH]; simpl; [reflexivity|now rewrite IH]. Qed.

Lemma span_space_stop (w s : string) (c : ascii) :
  all_space w = true -> isspace c = false ->
  span_space (w ++ String c s) = (w, String c s).
Proof.
  intros Hw Hc. induction w as [|x w IH]; simpl in *.
  - now rewrite Hc.
  - apply Bool.andb_true_iff in Hw as [Hx Hw]. now rewrite Hx, IH.
Qed.

Lemma span_space_all (w : string) :
  all_space w = true -> span_space w = (w, EmptyString).
Proof.
  intros Hw. induction w as [|x w IH]; simpl in *; [reflexivity|].
  apply Bool.andb_true_iff in Hw as [Hx Hw]. now rewrite Hx, IH.
Qed.

Lemma span_key_stop (k s : string) :
  no_quote k = true ->
  span_key (k ++ String dquote s) = (k, String dquote s).
Proof.
  intros Hk. induction k as [|x k IH]; simpl in *; [reflexivity|].
  apply Bool.andb_true_iff in Hk as [Hx Hk].
  apply Bool.negb_true_iff in Hx. now rewrite Hx, IH.
Qed.

Lemma scan_value_stop (v s : string) :
  value_text v ->
  scan_value (v ++ String dquote s) = Some (v, String dquote s).
Proof.
  induction 1 as [|c v Hc Hv IH|c v Hq Hb Hv IH]; simpl.
  - reflexivity.
  - apply N.eqb_neq in Hc. now rewrite Hc, IH.
  - apply Ascii.eqb_neq in Hq, Hb. now rewrite Hq, Hb, IH.
Qed.

Lemma match_key_stop (key s : string) :
  key_part key ->
  match_key (key ++ String dquote s) = Some (key, String dquote s).
Proof.
  intros (w0 & k & w1 & w2 & H0 & Hne & Hk & H1 & H2 & ->).
  unfold match_key.
  rewrite append_assoc. simpl. rewrite span_space_stop by (auto; reflexivity).
  simpl. rewrite append_assoc. simpl. rewrite span_key_stop by assumption.
  apply String.eqb_neq in Hne. rewrite Hne. simpl.
  rewrite append_assoc. simpl. rewrite span_space_stop by (auto; reflexivity).
  simpl. rewrite span_space_stop by (auto; reflexivity). reflexivity.
Qed.

Lemma all_space_app (a b : string) :
  all_space (a ++ b) = all_space a && all_space b.
Proof.
  induction a as [|x a IH]; simpl; [reflexivity|].
  now rewrite IH, Bool.andb_assoc.
Qed.

Lemma match_end_stop (rest trailing : string) :
  line_end rest trailing -> match_end rest = Some trailing.
Proof.
  intros (w3 & w4 & H3 & H4 & Ht & ->). unfold match_end.
  destruct Ht as [-> | ->]; simpl.
  - rewrite span_space_all by (rewrite all_space_app, H3, H4; reflexivity).
    reflexivity.
  - rewrite span_space_stop by (auto; reflexivity).
    now rewrite span_space_all.
Qed.

(** A line of the shape the pattern describes is matched, with the groups
    the shape names. *)
Lemma pattern_match_complete (key value rest trailing : string) :
  key_part key -> value_text value -> line_end rest trailing ->
  pattern_match (key ++ String dquote (value ++ String dquote rest)) =
  Some (key, value, trailing).
Proof.
  intros Hk Hv He. unfold pattern_match.
  rewrite match_key_stop by assumption. simpl.
  rewrite scan_value_stop by assumption. simpl.
  now rewrite match_end_stop with (trailing := trailing).
Qed.

(** Conversely, what the scan accepts has the shape. *)
Lemma span_space_inv (s : string) :
  forall w r, span_space s = (w, r) -> s = w ++ r /\ all_space w = true.
Proof.
  induction s as [|c s IH]; intros w r H; simpl in H.
  - injection H as <- <-. auto.
  - destruct (isspace c) eqn:Hc.
    + destruct (span_space s) as [w' r']. injection H as <- <-.
      destruct (IH w' r' eq_refl) as [-> Hw]. simpl. now rewrite Hc, Hw.
    + injection H as <- <-. auto.
Qed.

Lemma span_key_inv (s : string) :
  forall k r, span_key s = (k, r) -> s = k ++ r /\ no_quote k = true.
Proof.
  induction s as [|c s IH]; intros k r H; simpl in H.
  - injection H as <- <-. auto.
  - destruct (Ascii.eqb c dquote) eqn:Hc.
    + injection H as <- <-. auto.
    + destruct (span_key s) as [k' r']. injection H as <- <-.
      destruct (IH k' r' eq_refl) as [-> Hk]. simpl. now rewrite Hc, Hk.
Qed.

Lemma expect_inv (c : ascii) (s r : string) :
  expect c s = Some r -> s = String c r.
Proof.
  destruct s as [|a s]; simpl; [discriminate|].
  destruct (Ascii.eqb a c) eqn:E; [|discriminate].
  apply Ascii.eqb_eq in E. intros H. injection H as <-. now subst.
Qed.

Lemma scan_value_inv (n : nat) :
  forall s v r, String.length s <= n -> scan_value s = Some (v, r) ->
    s = v ++ r /\ value_text v.
Proof.
  induction n as [|n IH]; intros s v r Hlen H;
    destruct s as [|c s]; simpl in *; try discriminate; try lia.
  destruct (Ascii.eqb c dquote) eqn:Hq.
  { injection H as <- <-. split; [reflexivity|constructor]. }
  destruct (Ascii.eqb c backslash) eqn:Hb.
  - apply Ascii.eqb_eq in Hb. subst c.
    destruct s as [|d s]; [discriminate|].
    destruct (ord d =? 10)%N eqn:Hd; [discriminate|].
    destruct (scan_value s) as [[v' r']|] eqn:E; [|discriminate].
    injection H as <- <-.
    destruct (IH s v' r') as [-> Hv]; [simpl in Hlen; lia|assumption|].
    split; [reflexivity|]. apply value_escaped; [now apply N.eqb_neq|assumption].
  - destruct (scan_value s) as [[v' r']|] eqn:E; [|discriminate].
    injection H as <- <-.
    destruct (IH s v' r') as [-> Hv]; [lia|assumption|].
    split; [reflexivity|].
    apply value_plain; [now apply Ascii.eqb_neq|now apply Ascii.eqb_neq|assumption].
Qed.

Lemma match_key_inv (line key r : string) :
  match_key line = Some (key, r) -> key_part key /\ line = key ++ r.
Proof.
  unfold match_key. intros H.
  destruct (span_space line) as [w0 r0] eqn:E0.
  destruct (expect dquote r0) as [r1|] eqn:E1; [|discriminate].
  destruct (span_key r1) as [k r2] eqn:E2.
  destruct (k =? EmptyString) eqn:Ek; [discriminate|].
  destruct (expect dquote r2) as [r3|] eqn:E3; [|discriminate].
  destruct (span_space r3) as [w1 r4] eqn:E4.
  destruct (expect ":" r4) as [r5|] eqn:E5; [|discriminate].
  destruct (span_space r5) as [w2 r6] eqn:E6.
  injection H as <- <-.
  apply span_space_inv in E0 as [-> H0], E4 as [-> H1], E6 as [-> H2].
  apply span_key_inv in E2 as [-> Hk].
  apply expect_inv in E1 as ->, E3 as ->, E5 as ->.
  apply String.eqb_neq in Ek.
  split.
  - exists w0, k, w1, w2. auto 10.
  - rewrite !append_assoc. simpl. rewrite !append_assoc. simpl.
    now rewrite !append_assoc.
Qed.

Lemma match_end_inv (s trailing : string) :
  match_end s = Some trailing -> line_end s trailing.
Proof.
  unfold match_end. intros H.
  destruct (span_space s) as [w3 r0] eqn:E0.
  apply span_space_inv in E0 as [-> H3].
  assert (K : forall t r1,
            (let '(_, r2) := span_space r1 in
             if (r2 =? EmptyString) then Some t else @None string) = Some trailing ->
            t = trailing /\ all_space r1 = true).
  { intros t r1 K. destruct (span_space r1) as [w4 r2] eqn:E.
    apply span_space_inv in E as [-> H4].
    destruct (r2 =? EmptyString) eqn:E2; [|discriminate].
    apply String.eqb_eq in E2. subst r2. injection K as <-.
    now rewrite append_empty_r. }
  destruct r0 as [|c r].
  - apply K in H as [<- _]. exists w3, EmptyString. auto.
  - destruct (Ascii.eqb c ",") eqn:Hc.
    + apply Ascii.eqb_eq in Hc. subst c. apply K in H as [<- H4].
      exists w3, r. auto.
    + assert (E : (match String c r with
                   | String "," r' => (",", r')
                   | _ => (EmptyString, String c r)
                   end) = (EmptyString, String c r)).
      { destruct c as [[] [] [] [] [] [] [] []]; try reflexivity; discriminate. }
      rewrite E in H. apply K in H as [<- H4].
      exists (w3 ++ String c r), EmptyString.
      rewrite all_space_app, H3, H4, append_empty_r. auto.
Qed.

(** The lines the pattern matches are those of the shape, and the groups
    are the parts the shape names. *)
Lemma pattern_match_sound (line key value trailing : string) :
  pattern_match line = Some (key, value, trailing) ->
  key_part key /\ value_text value /\
  exists rest, line_end rest trailing /\
               line = key ++ String dquote (value ++ String dquote rest).
Proof.
  unfold pattern_match. intros H.
  destruct (match_key line) as [[k r0]|] eqn:E0; [|discriminate].
  destruct (expect dquote r0) as [r1|] eqn:E1; [|discriminate].
  destruct (scan_value r1) as [[v r2]|] eqn:E2; [|discriminate].
  destruct (expect dquote r2) as [r3|] eqn:E3; [|discriminate].
  destruct (match_end r3) as [t|] eqn:E4; [|discriminate].
  injection H as <- <- <-.
  apply match_key_inv in E0 as [Hk ->].
  apply expect_inv in E1 as ->, E3 as ->.
  apply (scan_value_inv (String.length r1)) in E2 as [-> Hv]; [|lia].
  apply match_end_inv in E4.
  split; [assumption|]. split; [assumption|]. exists r3. auto.
Qed.

(** White space and the comma are the only characters the end of the
    pattern reads: a quote after the value's closing quote stops it. *)
Lemma span_space_keeps_quote (s : string) :
  no_quote s = false -> no_quote (snd (span_space s)) = false.
Proof.
  induction s as [|c s IH]; simpl; [discriminate|].
  destruct (isspace c) eqn:Hc.
  - destruct (Ascii.eqb c dquote) eqn:Hq.
    + apply Ascii.eqb_eq in Hq. subst c. discriminate.
    + simpl. intros H. specialize (IH H).
      now destruct (span_space s).
  - simpl. auto.
Qed.

Lemma match_end_quote (s : string) :
  no_quote s = false -> match_end s = None.
Proof.
  intros H. unfold match_end.
  apply span_space_keeps_quote in H.
  destruct (span_space s) as [w3 r0]. simpl in H.
  assert (K : forall r, no_quote r = false ->
                (let '(_, r2) := span_space r in
                 if (r2 =? EmptyString) then Some EmptyString else @None string) = None
                /\ (let '(_, r2) := span_space r in
                    if (r2 =? EmptyString) then Some "," else @None string) = None).
  { intros r Hr. apply span_space_keeps_quote in Hr.
    destruct (span_space r) as [w r2]. simpl in Hr.
    destruct r2; [discriminate|]. split; reflexivity. }
  destruct r0 as [|c r]; [discriminate|].
  destruct (Ascii.eqb c ",") eqn:Hc.
  - apply Ascii.eqb_eq in Hc. subst c. simpl in H.
    destruct (K r H) as [_ K2].
    destruct (span_space r) as [w4 r2]. exact K2.
  - destruct (K (String c r) H) as [K1 _].
    assert (E : (match String c r with
                 | String "," r' => (",", r')
                 | _ => (EmptyString, String c r)
                 end) = (EmptyString, String c r)).
    { destruct c as [[] [] [] [] [] [] [] []]; try reflexivity; discriminate. }
    rewrite E. destruct (span_space (String c r)) as [w4 r2]. exact K1.
Qed.

Lemma no_quote_app_quote (a b : string) :
  no_quote (a ++ String dquote b) = false.
Proof.
  induction a as [|x a IH]; simpl; [reflexivity|].
  now rewrite IH, Bool.andb_false_r.
Qed.

(** A quote inside the value that no backslash escapes ends the value
    group; the real closing quote then stops the match. *)
Lemma pattern_match_embedded_quote (key v1 v2 rest : string) :
  key_part key -> value_text v1 ->
  pattern_match
    (key ++ String dquote ((v1 ++ String dquote v2) ++ String dquote rest)) = None.
Proof.
  intros Hk Hv. unfold pattern_match.
  rewrite match_key_stop by assumption. simpl.
  rewrite append_assoc. simpl.
  rewrite scan_value_stop by assumption. simpl.
  now rewrite match_end_quote by apply no_quote_app_quote.
Qed.

Lemma json_chars_plain (c : ascii) (s : string) :
  Ascii.eqb c dquote = false -> Ascii.eqb c backslash = false ->
  (32 <=? ord c)%N = true ->
  json_chars (String c s) = json_chars s.
Proof. intros H1 H2 H3. cbn [json_chars]. now rewrite H1, H2, H3. Qed.

Lemma json_chars_short (e : ascii) (s : string) :
  is_escape_letter e = true ->
  json_chars (String backslash (String e s)) = json_chars s.
Proof. intros H. cbn [json_chars]. now rewrite H. Qed.

Lemma json_chars_u00 (h3 h4 : ascii) (s : string) :
  is_hex h3 = true -> is_hex h4 = true ->
  json_chars (String backslash (String "u" (String "0" (String "0"
               (String h3 (String h4 s)))))) = json_chars s.
Proof. intros H3 H4. cbn [json_chars]. now rewrite H3, H4. Qed.

(** The escape of any character is read back by the grammar as one
    character of a string literal: checked on each of the 256 code
    points. *)
Lemma json_chars_escape (c : ascii) (rest : string) :
  json_chars (escape_char c ++ rest) = json_chars rest.
Proof.
  destruct c as [[] [] [] [] [] [] [] []];
    match goal with
    | |- context [escape_char ?x] =>
        let e := eval vm_compute in (escape_char x) in
        change (escape_char x) with e
    end;
    cbn [append];
    first [ apply json_chars_plain; reflexivity
          | apply json_chars_short; reflexivity
          | apply json_chars_u00; reflexivity ].
Qed.

(** What [json.dumps] writes for a string is a JSON string literal. *)
Lemma dumps_is_json_string (s : string) : is_json_string (dumps s) = true.
Proof.
  unfold dumps, is_json_string. rewrite Ascii.eqb_refl. simpl.
  induction s as [|c s IH]; simpl; [reflexivity|].
  now rewrite append_assoc, json_chars_escape.
Qed.

(** C3 (counterexample): the value of this line holds a quote that is not
    escaped; the line does not match the pattern, so the sanitizer returns
    it as it is, the quote still unescaped. *)
Lemma embedded_quote_not_escaped :
  pipe_line = key_description ++ String dquote (pipe_value ++ String dquote ",") /\
  fix_line pipe_line = pipe_line /\
  fix_line pipe_line <> key_description ++ dumps pipe_value ++ "," /\
  clean_json_string ("{" ++ newline ++ pipe_line ++ newline ++ "}") =
    "{" ++ newline ++ pipe_line ++ newline ++ "}".
Proof. vm_compute. repeat split. discriminate. Qed.

(** C3 (amended): in a line made of a key part, a quoted value and an
    optional comma with white space around it, a value made of escaped
    pairs and of characters other than the quote and the backslash
    (control characters included) is replaced by its JSON string literal,
    the key part and the comma being kept; a value that holds a quote no
    backslash escapes leaves the line as it is. *)
Theorem value_line_reserialised (key value rest trailing : string) :
  key_part key -> line_end rest trailing ->
  (value_text value ->
     fix_line (key ++ String dquote (value ++ String dquote rest)) =
     key ++ dumps value ++ trailing) /\
  (forall v1 v2, value = v1 ++ String dquote v2 -> value_text v1 ->
     fix_line (key ++ String dquote (value ++ String dquote rest)) =
     key ++ String dquote (value ++ String dquote rest)) /\
  is_json_string (dumps value) = true.
Proof.
  intros Hk He. split; [|split].
  - intros Hv. unfold fix_line.
    now rewrite (pattern_match_complete key value rest trailing).
  - intros v1 v2 -> Hv. unfold fix_line.
    now rewrite pattern_match_embedded_quote.
  - apply dumps_is_json_string.
Qed.

Lemma key_description_is_key_part : key_part key_description.
Proof.
  exists "  ", "description", EmptyString, " ".
  repeat split; try reflexivity. discriminate.
Qed.

Lemma value_line_reserialised_witness :
  fix_line tab_line = key_description ++ dumps tab_value ++ ","
  /\ fix_line pipe_line = pipe_line.
Proof.
  destruct (value_line_reserialised key_description tab_value " , " ","
              key_description_is_key_part) as (H & _ & _).
  { exists " ", " ". repeat split; try reflexivity. now right. }
  destruct (value_line_reserialised key_description pipe_value "," ","
              key_description_is_key_part) as (_ & K & _).
  { exists EmptyString, EmptyString. repeat split; try reflexivity. now right. }
  split.
  - apply H. unfold tab_value. simpl.
    repeat (apply value_plain; [discriminate|discriminate|]). apply value_empty.
  - apply (K "6" " pipe"); [reflexivity|].
    apply value_plain; [discriminate|discriminate|apply value_empty].
Defined.

(** ** The cut to the braces *)

Lemma rfind_from_lower (c : ascii) (s : string) :
  forall i last, (-1 <= last)%Z -> (0 <= i)%Z -> (-1 <= rfind_from c i last s)%Z.
Proof.
  induction s as [|a s IH]; intros i last Hl Hi; simpl; [assumption|].
  apply IH; [destruct (Ascii.eqb a c)|]; lia.
Qed.

(** The second test of the guard compares the index after the last closing
    brace with -1, and that index is never negative: the guard only tests
    for the opening brace. *)
Lemma cut_to_braces_guard (text : string) :
  cut_to_braces text =
  if (find text "{" =? -1)%Z then text
  else slice text (find text "{") (rfind text "}" + 1).
Proof.
  unfold cut_to_braces.
  pose proof (rfind_from_lower "}" text 0 (-1) ltac:(lia) ltac:(lia)) as H.
  fold (rfind text "}") in H.
  replace (rfind text "}" + 1 =? -1)%Z with false by (symmetry; apply Z.eqb_neq; lia).
  now destruct (find text "{" =? -1)%Z.
Qed.

Lemma substring_none (n : nat) (s : string) : substring n 0 s = EmptyString.
Proof.
  revert s. induction n as [|n IH]; intros [|c s]; simpl; auto.
Qed.

(** A text with an opening brace and no closing brace is cut to nothing. *)
Lemma cut_to_braces_unclosed (text : string) :
  find text "{" <> (-1)%Z -> rfind text "}" = (-1)%Z ->
  cut_to_braces text = EmptyString.
Proof.
  intros Hf Hr. rewrite cut_to_braces_guard, Hr.
  apply Z.eqb_neq in Hf. rewrite Hf. unfold slice, clamp_index. simpl.
  set (len := Z.of_nat (String.length text)).
  assert (0 <= len)%Z by (unfold len; lia).
  replace (Z.to_nat (Z.min 0 len - _)) with 0%nat.
  - apply substring_none.
  - destruct (Z.ltb_spec (find text "{") 0); lia.
Qed.

Lemma cut_to_braces_no_opening (text : string) :
  find text "{" = (-1)%Z -> cut_to_braces text = text.
Proof. intros H. now rewrite cut_to_braces_guard, H. Qed.

Lemma find_from_app (c : ascii) (pre rest : string) :
  forall i, lacks c pre = true ->
    find_from c i (pre ++ String c rest) = (i + Z.of_nat (String.length pre))%Z.
Proof.
  induction pre as [|a pre IH]; intros i H; simpl in *.
  - rewrite Ascii.eqb_refl. lia.
  - apply Bool.andb_true_iff in H as [Ha H]. apply Bool.negb_true_iff in Ha.
    rewrite Ha, IH by assumption. lia.
Qed.

Lemma rfind_from_lacks (c : ascii) (s : string) :
  forall i last, lacks c s = true -> rfind_from c i last s = last.
Proof.
  induction s as [|a s IH]; intros i last H; simpl in *; [reflexivity|].
  apply Bool.andb_true_iff in H as [Ha H]. apply Bool.negb_true_iff in Ha.
  now rewrite Ha, IH.
Qed.

Lemma rfind_from_app (c : ascii) (pre post : string) :
  forall i last, lacks c post = true ->
    rfind_from c i last (pre ++ String c post) = (i + Z.of_nat (String.length pre))%Z.
Proof.
  induction pre as [|a pre IH]; intros i last H; simpl.
  - rewrite Ascii.eqb_refl, rfind_from_lacks by assumption. lia.
  - rewrite IH by assumption. lia.
Qed.

Lemma length_append (a b : string) :
  String.length (a ++ b) = (String.length a + String.length b)%nat.
Proof. induction a as [|x a IH]; simpl; [reflexivity|now rewrite IH]. Qed.

Lemma substring_skip (pre s : string) (n : nat) :
  substring (String.length pre) n (pre ++ s) = substring 0 n s.
Proof. induction pre as [|x pre IH]; simpl; [reflexivity|exact IH]. Qed.

Lemma substring_prefix (m post : string) :
  substring 0 (String.length m) (m ++ post) = m.
Proof.
  induction m as [|x m IH]; simpl.
  - now destruct post.
  - now rewrite IH.
Qed.

(** With an opening brace and, after it, a closing brace, the cut keeps the
    text from the first opening brace to the last closing brace, both
    included. *)
Lemma cut_to_braces_span (pre mid post : string) :
  lacks "{" pre = true -> lacks "}" post = true ->
  cut_to_braces (pre ++ String "{" (mid ++ String "}" post)) =
  String "{" (mid ++ String "}" EmptyString).
Proof.
  intros Hpre Hpost. rewrite cut_to_braces_guard.
  set (text := pre ++ String "{" (mid ++ String "}" post)).
  assert (Hf : find text "{" = Z.of_nat (String.length pre)).
  { unfold find, text. now rewrite find_from_app. }
  assert (Hr : rfind text "}" =
               Z.of_nat (String.length pre + S (String.length mid))).
  { unfold rfind, text.
    replace (pre ++ String "{" (mid ++ String "}" post))
      with ((pre ++ String "{" mid) ++ String "}" post)
      by (now rewrite append_assoc).
    rewrite rfind_from_app by assumption.
    rewrite length_append. simpl. lia. }
  rewrite Hf, Hr.
  replace (Z.of_nat (String.length pre) =? -1)%Z with false
    by (symmetry; apply Z.eqb_neq; lia).
  unfold slice, clamp_index.
  assert (Hlen : String.length text =
                 (String.length pre + S (String.length mid + S (String.length post)))%nat).
  { unfold text. rewrite length_append. simpl. rewrite length_append. reflexivity. }
  rewrite Hlen.
  replace (Z.of_nat (String.length pre) <? 0)%Z with false
    by (symmetry; apply Z.ltb_ge; lia).
  replace (Z.of_nat (String.length pre + S (String.length mid)) + 1 <? 0)%Z
    with false by (symmetry; apply Z.ltb_ge; lia).
  rewrite !Z.min_l by lia.
  rewrite Nat2Z.id.
  replace (Z.to_nat _) with (String.length (String "{" (mid ++ String "}" EmptyString)))
    by (simpl; rewrite length_append; simpl; lia).
  unfold text. rewrite substring_skip.
  replace (String "{" (mid ++ String "}" post))
    with (String "{" (mid ++ String "}" EmptyString) ++ post)
    by (simpl; now rewrite append_assoc).
  apply substring_prefix.
Qed.

(** C2 (the code at the failing input): a response with an opening brace
    and no closing brace is not left unchanged: the cut empties it, and the
    sanitizer returns the empty text. *)
Theorem unclosed_text_is_emptied :
  find unclosed_text "{" = 0%Z /\
  rfind unclosed_text "}" = (-1)%Z /\
  cut_to_braces unclosed_text = EmptyString /\
  clean_json_string unclosed_text = EmptyString /\
  clean_json_string unclosed_text <> unclosed_text.
Proof. vm_compute. repeat split. discriminate. Qed.

(** ** PDF splitting: proofs *)

Lemma firstn_plus {A : Type} (a b : nat) (l : list A) :
  firstn (a + b) l = (firstn a l ++ firstn b (skipn a l))%list.
Proof.
  revert l. induction a as [|a IH]; intros l; simpl; [reflexivity|].
  destruct l as [|x l]; simpl.
  - now rewrite firstn_nil.
  - now rewrite IH.
Qed.

Lemma list_slice_window {A : Type} (l : list A) (j k : nat) :
  j * k < List.length l ->
  list_slice l (Z.of_nat (j * k)) (Z.of_nat (j * k) + Z.of_nat k) =
  firstn k (skipn (j * k) l).
Proof.
  intros H. unfold list_slice, clamp_index.
  replace (Z.of_nat (j * k) <? 0)%Z with false by (symmetry; apply Z.ltb_ge; lia).
  replace (Z.of_nat (j * k) + Z.of_nat k <? 0)%Z with false
    by (symmetry; apply Z.ltb_ge; lia).
  rewrite (Z.min_l (Z.of_nat (j * k))) by lia. rewrite Nat2Z.id.
  destruct (Z.le_ge_cases (Z.of_nat (j * k) + Z.of_nat k) (Z.of_nat (List.length l)))
    as [Hle|Hge].
  - rewrite Z.min_l by lia. f_equal. lia.
  - rewrite Z.min_r by lia.
    rewrite !firstn_all2; try reflexivity; rewrite length_skipn; lia.
Qed.

Lemma windows_concat {A : Type} (l : list A) (k m : nat) :
  concat (map (fun j => firstn k (skipn (j * k) l)) (seq 0 m)) = firstn (m * k) l.
Proof.
  induction m as [|m IH]; [reflexivity|].
  rewrite seq_S, map_app, concat_app, IH. simpl.
  rewrite app_nil_r, Nat.add_comm. symmetry. apply firstn_plus.
Qed.

(** The chunks of a document for a positive chunk size, as windows of the
    page list. *)
Lemma chunk_pages_windows {Page : Type} (pages : list Page) (k : nat) :
  0 < k ->
  chunk_pages Page pages (Z.of_nat k) =
  Some (map (fun j => firstn k (skipn (j * k) pages))
            (seq 0 ((List.length pages + k - 1) / k))).
Proof.
  intros Hk. unfold chunk_pages, py_range.
  replace (Z.of_nat k =? 0)%Z with false by (symmetry; apply Z.eqb_neq; lia).
  replace (0 <? Z.of_nat k)%Z with true by (symmetry; apply Z.ltb_lt; lia).
  set (n := List.length pages).
  assert (Hn : Z.to_nat (range_length 0 (Z.of_nat n) (Z.of_nat k)) = (n + k - 1) / k).
  { unfold range_length. destruct (Z.ltb_spec 0 (Z.of_nat n)) as [Hp|Hp].
    - replace (Z.of_nat n - 0 - 1)%Z with (Z.of_nat (n - 1)) by lia.
      rewrite <- Nat2Z.inj_div.
      replace ((n + k - 1) / k) with ((n - 1 + 1 * k) / k) by (f_equal; lia).
      rewrite Nat.div_add by lia. lia.
    - replace n with 0 by lia. rewrite Nat.div_small by lia. reflexivity. }
  rewrite Hn. f_equal. rewrite map_map. apply map_ext_in.
  intros j Hj. apply in_seq in Hj. simpl.
  rewrite <- Nat2Z.inj_mul.
  apply list_slice_window. fold n.
  assert (j <= (n + k - 1) / k - 1) by lia.
  assert (Q : k * ((n + k - 1) / k) <= n + k - 1) by apply Nat.Div0.mul_div_le.
  nia.
Qed.

Lemma window_length {A : Type} (l : list A) (j k : nat) :
  List.length (firstn k (skipn (j * k) l)) = Nat.min k (List.length l - j * k).
Proof. now rewrite length_firstn, length_skipn. Qed.

Lemma chunk_count_bounds (n k : nat) :
  0 < k ->
  n <= (n + k - 1) / k * k /\ ((n + k - 1) / k - 1) * k < n \/ n = 0.
Proof.
  intros Hk. destruct n as [|n]; [now right|left].
  pose proof (Nat.Div0.mul_div_le (S n + k - 1) k) as Q.
  pose proof (Nat.Div0.div_mod (S n + k - 1) k) as D.
  pose proof (Nat.mod_upper_bound (S n + k - 1) k ltac:(lia)) as M.
  nia.
Qed.

(** X1: with a positive chunk size the chunks partition the document: the
    page groups written to the chunks, put end to end, are the pages of the
    document in order, none lost and none repeated. *)
Theorem chunks_partition_pages
  {Page Buffer : Type} (write_pages : list Page -> Buffer)
  (pages : list Page) (pages_per_chunk : Z) :
  (0 < pages_per_chunk)%Z ->
  exists groups,
    chunk_pages Page pages pages_per_chunk = Some groups /\
    concat groups = pages /\
    chunk_pdf Page Buffer write_pages pages pages_per_chunk =
      Some (map write_pages groups).
Proof.
  intros Hk. set (k := Z.to_nat pages_per_chunk).
  assert (E : pages_per_chunk = Z.of_nat k) by (unfold k; lia).
  assert (Hk' : 0 < k) by lia.
  pose proof (chunk_pages_windows pages k Hk') as W. rewrite <- E in W.
  eexists. split; [exact W|]. split.
  - rewrite windows_concat. apply firstn_all2.
    destruct (chunk_count_bounds (List.length pages) k Hk') as [[H _]|H]; lia.
  - unfold chunk_pdf. now rewrite W.
Qed.

Lemma chunks_partition_pages_witness :
  exists groups,
    chunk_pages nat [1; 2; 3; 4; 5; 6; 7] 3 = Some groups /\
    concat groups = [1; 2; 3; 4; 5; 6; 7] /\
    chunk_pdf nat nat (@List.length nat) [1; 2; 3; 4; 5; 6; 7] 3 =
      Some (map (@List.length nat) groups).
Proof.
  apply (chunks_partition_pages (@List.length nat) [1; 2; 3; 4; 5; 6; 7] 3).
  reflexivity.
Defined.

(** X2: with a positive chunk size [k] a document of [n] pages gives
    [ceil(n / k)] chunks; every chunk holds at least one page and at most
    [k], and every chunk but the last holds exactly [k]. *)
Theorem chunk_sizes
  {Page : Type} (pages : list Page) (pages_per_chunk : Z) (groups : list (list Page)) :
  (0 < pages_per_chunk)%Z ->
  chunk_pages Page pages pages_per_chunk = Some groups ->
  Z.of_nat (List.length groups) =
    ((Z.of_nat (List.length pages) + pages_per_chunk - 1) / pages_per_chunk)%Z /\
  (forall j g, nth_error groups j = Some g ->
     (1 <= Z.of_nat (List.length g) <= pages_per_chunk)%Z /\
     (S j < List.length groups -> Z.of_nat (List.length g) = pages_per_chunk)).
Proof.
  intros Hk. set (k := Z.to_nat pages_per_chunk).
  assert (E : pages_per_chunk = Z.of_nat k) by (unfold k; lia).
  assert (Hk' : 0 < k) by lia.
  rewrite E, (chunk_pages_windows pages k Hk'). intros H. injection H as <-.
  set (n := List.length pages). set (c := (n + k - 1) / k).
  rewrite length_map, length_seq.
  split.
  - unfold c. rewrite Nat2Z.inj_div. f_equal. lia.
  - intros j g Hj.
    assert (Hlt : j < c).
    { assert (N : nth_error (map (fun j => firstn k (skipn (j * k) pages)) (seq 0 c)) j <> None)
        by congruence.
      apply nth_error_Some in N. now rewrite length_map, length_seq in N. }
    rewrite nth_error_map, nth_error_seq in Hj.
    apply Nat.ltb_lt in Hlt. rewrite Hlt in Hj. apply Nat.ltb_lt in Hlt.
    simpl in Hj. injection Hj as <-. rewrite window_length. fold n.
    destruct (chunk_count_bounds n k Hk') as [[Hu Hl]|H0].
    + fold c in Hu, Hl. split; [nia|]. intros Hs. nia.
    + exfalso. unfold c in Hlt. rewrite H0 in Hlt.
      rewrite Nat.div_small in Hlt by lia. lia.
Qed.

Lemma chunk_sizes_witness :
  Z.of_nat (List.length [[1; 2; 3; 4; 5]; [6; 7; 8; 9; 10]; [11; 12]]) = 3%Z.
Proof.
  apply (chunk_sizes [1; 2; 3; 4; 5; 6; 7; 8; 9; 10; 11; 12] 5
           [[1; 2; 3; 4; 5]; [6; 7; 8; 9; 10]; [11; 12]]); reflexivity.
Defined.

(** X3: a chunk size of zero makes the split raise, and a negative chunk
    size makes it return no chunk at all, whatever the document holds. *)
Theorem chunk_size_not_positive
  {Page Buffer : Type} (write_pages : list Page -> Buffer)
  (pages : list Page) (pages_per_chunk : Z) :
  (pages_per_chunk <= 0)%Z ->
  chunk_pdf Page Buffer write_pages pages pages_per_chunk =
  if (pages_per_chunk =? 0)%Z then None else Some [].
Proof.
  intros Hk. unfold chunk_pdf, chunk_pages, py_range.
  destruct (Z.eqb_spec pages_per_chunk 0) as [E|E]; [reflexivity|].
  replace (0 <? pages_per_chunk)%Z with false by (symmetry; apply Z.ltb_ge; lia).
  unfold range_length.
  replace (Z.of_nat (List.length pages) <? 0)%Z with false
    by (symmetry; apply Z.ltb_ge; lia).
  reflexivity.
Qed.

Lemma chunk_size_not_positive_witness :
  chunk_pdf nat nat (@List.length nat) [1; 2; 3] (-5) = Some [] /\
  chunk_pdf nat nat (@List.length nat) [1; 2; 3] 0 = None.
Proof.
  split.
  - apply (chunk_size_not_positive (@List.length nat) [1; 2; 3] (-5)). lia.
  - apply (chunk_size_not_positive (@List.length nat) [1; 2; 3] 0). lia.
Defined.

(** ** Reading amounts: proofs *)

Lemma comma_prefix (c : ascii) (s : string) :
  prefix "," (String c s) = Ascii.eqb c ",".
Proof.
  cbn [prefix]. destruct (ascii_dec "," c) as [<-|N].
  - rewrite Ascii.eqb_refl. now destruct s.
  - symmetry. apply Ascii.eqb_neq. congruence.
Qed.

(** Removing the commas is a filter. *)
Lemma remove_commas_cons (c : ascii) (s : string) :
  str_replace (String c s) "," EmptyString =
  if Ascii.eqb c "," then str_replace s "," EmptyString
  else String c (str_replace s "," EmptyString).
Proof.
  unfold str_replace. cbn [replace_from]. rewrite comma_prefix.
  now destruct (Ascii.eqb c ",").
Qed.

Lemma remove_commas_app (a b : string) :
  str_replace (a ++ b) "," EmptyString =
  str_replace a "," EmptyString ++ str_replace b "," EmptyString.
Proof.
  induction a as [|c a IH]; [reflexivity|].
  cbn [append]. rewrite !remove_commas_cons, IH.
  now destruct (Ascii.eqb c ",").
Qed.

(** X4: a comma is ignored wherever it stands in the text of an amount. *)
Theorem to_num_ignores_commas (a b : string) :
  _to_num (a ++ String "," b) = _to_num (a ++ b).
Proof.
  unfold _to_num. rewrite !remove_commas_app, remove_commas_cons. reflexivity.
Qed.

Lemma remove_commas_blank (s : string) :
  blank s = true -> all_space (str_replace s "," EmptyString) = true.
Proof.
  induction s as [|c s IH]; [reflexivity|]. simpl blank.
  intros H. apply Bool.andb_true_iff in H as [Hc Hs].
  rewrite remove_commas_cons.
  destruct (Ascii.eqb c ",") eqn:E; [auto|].
  rewrite Bool.orb_false_r in Hc. simpl. rewrite Hc. auto.
Qed.

(** X5: a text holding nothing but white space and commas (the empty text
    included) reads as zero. *)
Theorem blank_amount_is_zero (s : string) :
  blank s = true ->
  _to_num s = FDec false 0 0 /\ eq0 (_to_num s) = true /\ gt0 (_to_num s) = false.
Proof.
  intros H. assert (E : _to_num s = FDec false 0 0).
  { unfold _to_num.
    rewrite strip_all_space by now apply remove_commas_blank.
    reflexivity. }
  rewrite E. repeat split.
Qed.

Lemma blank_amount_is_zero_witness :
  _to_num " , " = FDec false 0 0.
Proof. apply (blank_amount_is_zero " , "). reflexivity. Defined.

Lemma rstrip_keeps_head (c : ascii) (s : string) :
  isspace c = false -> exists y, rstrip (String c s) = String c y.
Proof.
  intros Hc. simpl. destruct (rstrip s) as [|d r].
  - rewrite Hc. now exists EmptyString.
  - now exists (String d r).
Qed.

Lemma c_rstrip_keeps_head (c : ascii) (s : string) :
  c_isspace c = false -> exists y, c_rstrip (String c s) = String c y.
Proof.
  intros Hc. simpl. destruct (c_rstrip s) as [|d r].
  - rewrite Hc. now exists EmptyString.
  - now exists (String d r).
Qed.

Lemma negative_parse_not_positive (body : string) (f : pyfloat) :
  match parse_inf_or_nan true body with
  | Some x => Some x
  | None => parse_decimal true body
  end = Some f ->
  gt0 f = false.
Proof.
  unfold parse_inf_or_nan, parse_decimal.
  destruct ((ascii_lower_str body =? "inf") || (ascii_lower_str body =? "infinity")).
  { intros H. injection H as <-. reflexivity. }
  destruct (ascii_lower_str body =? "nan").
  { intros H. injection H as <-. reflexivity. }
  destruct (read_digits 0 0 body) as [[ip n1] r1].
  destruct (match r1 with
            | String "." r => read_digits ip 0 r
            | _ => (ip, 0%Z, r1)
            end) as [[m n2] r2].
  destruct (0 <? n1 + n2)%Z; [|discriminate].
  destruct (parse_exponent r2); [|discriminate].
  intros H. injection H as <-. reflexivity.
Qed.

(** X6: a text that starts with a minus sign is never read as a positive
    amount, whatever follows the sign. *)
Theorem minus_sign_never_positive (s : string) :
  gt0 (_to_num (String "-" s)) = false.
Proof.
  unfold _to_num. rewrite remove_commas_cons.
  change (Ascii.eqb "-" ",") with false. cbv iota.
  unfold strip. cbn [lstrip]. change (isspace "-") with false. cbv iota.
  destruct (rstrip_keeps_head "-" (str_replace s "," EmptyString) eq_refl) as [y ->].
  change (String "-" y =? EmptyString) with false. cbv iota.
  unfold float_of_string. cbn [to_ascii_spaces].
  change (to_ascii_char "-") with "-"%char. cbn [drop_underscores].
  change (Ascii.eqb "-" "_") with false.
  change (Ascii.eqb zero "_") with false. cbv iota. cbn [andb].
  destruct (drop_underscores "-" (to_ascii_spaces y)) as [z|]; [|reflexivity].
  cbn [option_map c_lstrip]. change (c_isspace "-") with false. cbv iota.
  destruct (c_rstrip_keeps_head "-" z eq_refl) as [z' ->].
  change (read_sign (String "-" z')) with (true, z').
  cbv iota beta.
  pose proof (negative_parse_not_positive z') as N.
  destruct (match parse_inf_or_nan true z' with
            | Some x => Some x
            | None => parse_decimal true z'
            end) as [f|] eqn:E.
  - exact (N f eq_refl).
  - reflexivity.
Qed.

(** What the characters of a plain decimal are not. *)
Lemma amount_char_facts (c : ascii) :
  amount_char c = true ->
  isspace c = false /\ c_isspace c = false /\ Ascii.eqb c "," = false /\
  Ascii.eqb c "_" = false /\ to_ascii_char c = c.
Proof.
  destruct c as [[] [] [] [] [] [] [] []];
    try (intros H; discriminate H); intros _; repeat split.
Qed.

Lemma digit_facts (c : ascii) :
  is_digit c = true ->
  amount_char c = true /\ (0 <= digit_val c <= 9)%Z /\
  Ascii.eqb c "0" = (digit_val c =? 0)%Z /\
  Ascii.eqb c "." = false /\ Ascii.eqb c "e" = false /\ Ascii.eqb c "E" = false /\
  (forall s, read_sign (String c s) = (false, String c s)) /\
  Ascii.eqb (ascii_lower c) "i" = false /\ Ascii.eqb (ascii_lower c) "n" = false.
Proof.
  destruct c as [[] [] [] [] [] [] [] []];
    try (intros H; discriminate H); intros _; repeat split; vm_compute; congruence.
Qed.

Lemma amount_text_app (a b : string) :
  amount_text (a ++ b) = amount_text a && amount_text b.
Proof.
  induction a as [|c a IH]; simpl; [reflexivity|].
  now rewrite IH, Bool.andb_assoc.
Qed.

Lemma all_digits_amount (s : string) : all_digits s = true -> amount_text s = true.
Proof.
  induction s as [|c s IH]; simpl; [reflexivity|]. intros H.
  apply Bool.andb_true_iff in H as [Hc Hs].
  destruct (digit_facts c Hc) as [-> _]. auto.
Qed.

Lemma amount_text_no_commas (s : string) :
  amount_text s = true -> str_replace s "," EmptyString = s.
Proof.
  induction s as [|c s IH]; [reflexivity|]. simpl amount_text. intros H.
  apply Bool.andb_true_iff in H as [Hc Hs].
  destruct (amount_char_facts c Hc) as (_ & _ & E & _).
  now rewrite remove_commas_cons, E, IH.
Qed.

Lemma amount_text_strip (s : string) : amount_text s = true -> strip s = s.
Proof.
  intros H. unfold strip.
  assert (L : lstrip s = s).
  { destruct s as [|c s]; [reflexivity|]. simpl in *.
    apply Bool.andb_true_iff in H as [Hc _].
    destruct (amount_char_facts c Hc) as (-> & _). reflexivity. }
  rewrite L. clear L.
  induction s as [|c s IH]; [reflexivity|]. simpl in *.
  apply Bool.andb_true_iff in H as [Hc Hs]. rewrite IH by assumption.
  destruct (amount_char_facts c Hc) as (-> & _). now destruct s.
Qed.

Lemma amount_text_c_strip (s : string) :
  amount_text s = true -> c_rstrip (c_lstrip s) = s.
Proof.
  intros H.
  assert (L : c_lstrip s = s).
  { destruct s as [|c s]; [reflexivity|]. simpl in *.
    apply Bool.andb_true_iff in H as [Hc _].
    destruct (amount_char_facts c Hc) as (_ & -> & _). reflexivity. }
  rewrite L. clear L.
  induction s as [|c s IH]; [reflexivity|]. simpl in *.
  apply Bool.andb_true_iff in H as [Hc Hs]. rewrite IH by assumption.
  destruct (amount_char_facts c Hc) as (_ & -> & _). now destruct s.
Qed.

Lemma amount_text_ascii (s : string) :
  amount_text s = true -> to_ascii_spaces s = s.
Proof.
  induction s as [|c s IH]; [reflexivity|]. simpl. intros H.
  apply Bool.andb_true_iff in H as [Hc Hs].
  destruct (amount_char_facts c Hc) as (_ & _ & _ & _ & ->). now rewrite IH.
Qed.

Lemma amount_text_underscores (s : string) :
  forall prev, Ascii.eqb prev "_" = false -> amount_text s = true ->
    drop_underscores prev s = Some s.
Proof.
  induction s as [|c s IH]; intros prev Hp H; simpl in *.
  - now rewrite Hp.
  - apply Bool.andb_true_iff in H as [Hc Hs].
    destruct (amount_char_facts c Hc) as (_ & _ & _ & E & _).
    rewrite E, Hp. simpl. now rewrite IH.
Qed.

(** A plain decimal goes through the cleaning steps untouched. *)
Lemma amount_text_float (s : string) :
  amount_text s = true -> s <> EmptyString ->
  _to_num s =
  match (let '(neg, body) := read_sign s in
         match parse_inf_or_nan neg body with
         | Some f => Some f
         | None => parse_decimal neg body
         end) with
  | Some x => x
  | None => FDec false 0 0
  end.
Proof.
  intros H Hne. unfold _to_num.
  rewrite amount_text_no_commas, amount_text_strip by assumption.
  apply String.eqb_neq in Hne. rewrite Hne.
  unfold float_of_string.
  rewrite amount_text_ascii, amount_text_underscores, amount_text_c_strip
    by (assumption || reflexivity).
  reflexivity.
Qed.

Lemma read_digits_all (ds : string) :
  forall acc cnt, all_digits ds = true ->
    read_digits acc cnt ds =
    (digits_from acc ds, (cnt + Z.of_nat (String.length ds))%Z, EmptyString).
Proof.
  induction ds as [|c ds IH]; intros acc cnt H;
    cbn [read_digits all_digits digits_from String.length] in *.
  - now rewrite Z.add_0_r.
  - apply Bool.andb_true_iff in H as [Hc Hs]. rewrite Hc, IH by assumption.
    f_equal. f_equal. lia.
Qed.

Lemma read_digits_point (ds r : string) :
  forall acc cnt, all_digits ds = true ->
    read_digits acc cnt (ds ++ String "." r) =
    (digits_from acc ds, (cnt + Z.of_nat (String.length ds))%Z, String "." r).
Proof.
  induction ds as [|c ds IH]; intros acc cnt H.
  - cbn. now rewrite Z.add_0_r.
  - cbn [append read_digits all_digits digits_from String.length] in *.
    apply Bool.andb_true_iff in H as [Hc Hs]. rewrite Hc, IH by assumption.
    f_equal. f_equal. lia.
Qed.

Lemma digits_from_app (a b : string) (acc : Z) :
  digits_from acc (a ++ b) = digits_from (digits_from acc a) b.
Proof.
  revert acc. induction a as [|c a IH]; intros acc; simpl; [reflexivity|apply IH].
Qed.

Lemma digits_from_sign (ds : string) :
  forall acc, (0 <= acc)%Z -> all_digits ds = true ->
    (0 <= digits_from acc ds)%Z /\
    ((digits_from acc ds =? 0)%Z = (acc =? 0)%Z && all_zeros ds).
Proof.
  induction ds as [|c ds IH]; intros acc Ha H;
    cbn [digits_from all_digits all_zeros] in *.
  - split; [assumption|now rewrite Bool.andb_true_r].
  - apply Bool.andb_true_iff in H as [Hc Hs].
    destruct (digit_facts c Hc) as (_ & Hd & Hz & _).
    destruct (IH (10 * acc + digit_val c)%Z ltac:(lia) Hs) as [Hp E].
    split; [assumption|]. rewrite E, Hz.
    destruct (Z.eqb_spec acc 0), (Z.eqb_spec (digit_val c) 0),
      (Z.eqb_spec (10 * acc + digit_val c) 0); simpl; try reflexivity; lia.
Qed.

Lemma no_underflow (m : Z) (n : nat) :
  (0 < m)%Z -> n <= 323 ->
  rounds_to_zero m (- Z.of_nat n) = false.
Proof.
  intros Hm Hn. unfold rounds_to_zero.
  replace (m =? 0)%Z with false by (symmetry; apply Z.eqb_neq; lia).
  rewrite Z.opp_involutive. cbn [orb].
  apply Bool.andb_false_iff. right. apply Z.leb_gt.
  assert (B : (10 ^ 323 < 2 ^ 1075)%Z) by (apply Z.ltb_lt; vm_compute; reflexivity).
  assert (M : (10 ^ Z.of_nat n <= 10 ^ 323)%Z) by (apply Z.pow_le_mono_r; lia).
  assert (P : (0 < 2 ^ 1075)%Z) by (apply Z.pow_pos_nonneg; lia).
  nia.
Qed.

Lemma decimal_value (neg : bool) (ip fp : string) :
  all_digits ip = true -> all_digits fp = true -> ip <> EmptyString ->
  parse_decimal neg ip = Some (FDec neg (digits_from 0 ip) 0) /\
  parse_decimal neg (ip ++ String "." fp) =
    Some (FDec neg (digits_from 0 (ip ++ fp)) (- Z.of_nat (String.length fp))).
Proof.
  intros Hi Hf Hne.
  assert (L : (0 < Z.of_nat (String.length ip))%Z)
    by (destruct ip; [congruence|simpl; lia]).
  split; unfold parse_decimal.
  - rewrite read_digits_all by assumption.
    replace (0 <? 0 + Z.of_nat (String.length ip) + 0)%Z with true
      by (symmetry; apply Z.ltb_lt; lia).
    reflexivity.
  - rewrite read_digits_point by assumption.
    rewrite read_digits_all by assumption.
    replace (0 <? 0 + Z.of_nat (String.length ip) + (0 + Z.of_nat (String.length fp)))%Z
      with true by (symmetry; apply Z.ltb_lt; lia).
    cbn [parse_exponent]. rewrite digits_from_app. do 2 f_equal; lia.
Qed.

(** X7: a plain decimal (digits, or digits, a point and at most 323 more
    digits) is read as a positive amount exactly when one of its digits is
    not 0, and as zero exactly when all of them are 0. *)
Theorem plain_decimal_sign (ip fp : string) :
  all_digits ip = true -> all_digits fp = true -> ip <> EmptyString ->
  String.length fp <= 323 ->
  gt0 (_to_num ip) = negb (all_zeros ip) /\
  eq0 (_to_num ip) = all_zeros ip /\
  gt0 (_to_num (ip ++ String "." fp)) = negb (all_zeros (ip ++ fp)) /\
  eq0 (_to_num (ip ++ String "." fp)) = all_zeros (ip ++ fp).
Proof.
  intros Hi Hf Hne Hlen.
  destruct ip as [|c ip']; [congruence|]. set (ip := String c ip') in *.
  assert (Hc : is_digit c = true)
    by (simpl in Hi; now apply Bool.andb_true_iff in Hi as [? _]).
  destruct (digit_facts c Hc) as (_ & _ & _ & _ & _ & _ & Hs & Hl1 & Hl2).
  assert (Hinf : forall neg s, parse_inf_or_nan neg (String c s) = None).
  { intros neg s. unfold parse_inf_or_nan. cbn [ascii_lower_str String.eqb].
    now rewrite Hl1, Hl2. }
  destruct (decimal_value false ip fp Hi Hf Hne) as [D1 D2].
  assert (A1 : amount_text ip = true) by now apply all_digits_amount.
  assert (A2 : amount_text (ip ++ String "." fp) = true).
  { rewrite amount_text_app, A1. simpl. now apply all_digits_amount. }
  assert (E1 : _to_num ip = FDec false (digits_from 0 ip) 0).
  { rewrite amount_text_float by assumption. unfold ip at 1. rewrite Hs.
    cbv iota beta. fold ip. unfold ip at 1. rewrite Hinf. fold ip. now rewrite D1. }
  assert (E2 : _to_num (ip ++ String "." fp) =
               FDec false (digits_from 0 (ip ++ fp)) (- Z.of_nat (String.length fp))).
  { rewrite amount_text_float by (assumption || discriminate).
    unfold ip at 1. cbn [append]. rewrite Hs. cbv iota beta. rewrite Hinf.
    change (String c (ip' ++ String "." fp)) with (ip ++ String "." fp).
    now rewrite D2. }
  assert (Hall : all_digits (ip ++ fp) = true).
  { clear -Hi Hf. induction ip as [|x a IH]; simpl in *; [assumption|].
    apply Bool.andb_true_iff in Hi as [-> Hi]. auto. }
  destruct (digits_from_sign ip 0 ltac:(lia) Hi) as [P1 Z1].
  destruct (digits_from_sign (ip ++ fp) 0 ltac:(lia) Hall) as [P2 Z2].
  rewrite Z.eqb_refl in Z1, Z2. cbn [andb] in Z1, Z2.
  rewrite E1, E2. cbn [gt0 eq0 negb andb].
  assert (R1 : rounds_to_zero (digits_from 0 ip) 0 = all_zeros ip).
  { unfold rounds_to_zero. rewrite Z1. cbn [Z.ltb Z.compare andb].
    now rewrite Bool.orb_false_r. }
  assert (R2 : rounds_to_zero (digits_from 0 (ip ++ fp)) (- Z.of_nat (String.length fp))
               = all_zeros (ip ++ fp)).
  { destruct (all_zeros (ip ++ fp)) eqn:Z.
    - unfold rounds_to_zero. now rewrite Z2.
    - apply no_underflow; [|assumption]. apply Z.eqb_neq in Z2. lia. }
  rewrite R1, R2. auto.
Qed.

Lemma plain_decimal_sign_witness :
  gt0 (_to_num ("10" ++ String "." "00")) = true
  /\ eq0 (_to_num ("0" ++ String "." "00")) = true.
Proof.
  destruct (plain_decimal_sign "10" "00") as (_ & _ & H & _);
    [reflexivity|reflexivity|discriminate|simpl; lia|].
  destruct (plain_decimal_sign "0" "00") as (_ & _ & _ & K);
    [reflexivity|reflexivity|discriminate|simpl; lia|].
  exact (conj H K).
Defined.

(** ** Texts that are not numbers *)

Lemma float_char_facts (c : ascii) :
  (float_char (to_ascii_char c) = true -> float_char c = true) /\
  (word_char (ascii_lower c) = true -> float_char c = true) /\
  (is_digit c = true -> float_char c = true) /\
  (isspace c = true -> float_char c = true) /\
  (c_isspace c = true -> float_char c = true) /\
  (Ascii.eqb c "," = true -> float_char c = true) /\
  (Ascii.eqb c "_" = true -> float_char c = true) /\
  (Ascii.eqb c "." = true -> float_char c = true) /\
  (Ascii.eqb c "e" || Ascii.eqb c "E" = true -> float_char c = true) /\
  (forall s, all_chars float_char (snd (read_sign (String c s))) = true ->
             all_chars float_char (String c s) = true).
Proof.
  destruct c as [[] [] [] [] [] [] [] []];
    repeat split; try (intros H; discriminate H); try reflexivity;
    intros s H; exact H.
Qed.

Lemma remove_commas_chars (s : string) :
  all_chars float_char (str_replace s "," EmptyString) = true ->
  all_chars float_char s = true.
Proof.
  induction s as [|c s IH]; [reflexivity|]. rewrite remove_commas_cons.
  destruct (Ascii.eqb c ",") eqn:E; simpl.
  - intros H. destruct (float_char_facts c) as (_ & _ & _ & _ & _ & F & _).
    rewrite F by assumption. auto.
  - intros H. apply Bool.andb_true_iff in H as [-> H]. auto.
Qed.

Lemma lstrip_chars (s : string) :
  all_chars float_char (lstrip s) = true -> all_chars float_char s = true.
Proof.
  induction s as [|c s IH]; [reflexivity|]. simpl.
  destruct (isspace c) eqn:E; [|auto].
  intros H. destruct (float_char_facts c) as (_ & _ & _ & F & _).
  rewrite F by assumption. auto.
Qed.

Lemma rstrip_chars (s : string) :
  all_chars float_char (rstrip s) = true -> all_chars float_char s = true.
Proof.
  induction s as [|c s IH]; [reflexivity|]. simpl.
  destruct (rstrip s) as [|d r].
  - destruct (isspace c) eqn:E; simpl.
    + intros _. destruct (float_char_facts c) as (_ & _ & _ & F & _).
      rewrite F by assumption. auto.
    + intros H. apply Bool.andb_true_iff in H as [-> _]. auto.
  - simpl. intros H. apply Bool.andb_true_iff in H as [-> H]. auto.
Qed.

Lemma c_lstrip_chars (s : string) :
  all_chars float_char (c_lstrip s) = true -> all_chars float_char s = true.
Proof.
  induction s as [|c s IH]; [reflexivity|]. simpl.
  destruct (c_isspace c) eqn:E; [|auto].
  intros H. destruct (float_char_facts c) as (_ & _ & _ & _ & F & _).
  rewrite F by assumption. auto.
Qed.

Lemma c_rstrip_chars (s : string) :
  all_chars float_char (c_rstrip s) = true -> all_chars float_char s = true.
Proof.
  induction s as [|c s IH]; [reflexivity|]. simpl.
  destruct (c_rstrip s) as [|d r].
  - destruct (c_isspace c) eqn:E; simpl.
    + intros _. destruct (float_char_facts c) as (_ & _ & _ & _ & F & _).
      rewrite F by assumption. auto.
    + intros H. apply Bool.andb_true_iff in H as [-> _]. auto.
  - simpl. intros H. apply Bool.andb_true_iff in H as [-> H]. auto.
Qed.

Lemma to_ascii_chars (s : string) :
  all_chars float_char (to_ascii_spaces s) = true -> all_chars float_char s = true.
Proof.
  induction s as [|c s IH]; [reflexivity|]. simpl. intros H.
  apply Bool.andb_true_iff in H as [Hc H].
  destruct (float_char_facts c) as (F & _). rewrite F by assumption. auto.
Qed.

Lemma drop_underscores_chars (s : string) :
  forall prev t, drop_underscores prev s = Some t ->
    all_chars float_char t = true -> all_chars float_char s = true.
Proof.
  induction s as [|c s IH]; intros prev t H Ht; [reflexivity|]. simpl in *.
  destruct (Ascii.eqb c "_") eqn:E.
  - destruct (float_char_facts c) as (_ & _ & _ & _ & _ & _ & F & _).
    rewrite F by assumption. destruct (is_digit prev); [|discriminate]. eauto.
  - destruct (Ascii.eqb prev "_" && negb (is_digit c)); [discriminate|].
    destruct (drop_underscores c s) as [u|] eqn:D; [|discriminate].
    injection H as <-. simpl in Ht.
    apply Bool.andb_true_iff in Ht as [-> Ht]. eauto.
Qed.

Lemma lower_word_chars (s : string) :
  all_chars word_char (ascii_lower_str s) = true -> all_chars float_char s = true.
Proof.
  induction s as [|c s IH]; [reflexivity|]. simpl. intros H.
  apply Bool.andb_true_iff in H as [Hc H].
  destruct (float_char_facts c) as (_ & F & _). rewrite F by assumption. auto.
Qed.

Lemma parse_inf_or_nan_chars (neg : bool) (s : string) (f : pyfloat) :
  parse_inf_or_nan neg s = Some f -> all_chars float_char s = true.
Proof.
  unfold parse_inf_or_nan. intros H. apply lower_word_chars.
  destruct (ascii_lower_str s =? "inf") eqn:E1.
  { apply String.eqb_eq in E1. now rewrite E1. }
  destruct (ascii_lower_str s =? "infinity") eqn:E2.
  { apply String.eqb_eq in E2. now rewrite E2. }
  destruct (ascii_lower_str s =? "nan") eqn:E3; [|discriminate].
  apply String.eqb_eq in E3. now rewrite E3.
Qed.

Lemma read_digits_chars (s : string) :
  forall acc cnt v n r, read_digits acc cnt s = (v, n, r) ->
    all_chars float_char r = true -> all_chars float_char s = true.
Proof.
  induction s as [|c s IH]; intros acc cnt v n r H Hr; [reflexivity|].
  cbn [read_digits] in H. destruct (is_digit c) eqn:E.
  - simpl. destruct (float_char_facts c) as (_ & _ & F & _).
    rewrite F by assumption. eauto.
  - injection H as _ _ <-. exact Hr.
Qed.

Lemma parse_exponent_chars (s : string) (x : Z) :
  parse_exponent s = Some x -> all_chars float_char s = true.
Proof.
  destruct s as [|c s]; [reflexivity|]. cbn [parse_exponent].
  destruct (Ascii.eqb c "e" || Ascii.eqb c "E") eqn:E; [|discriminate].
  destruct (read_sign s) as [eneg ds] eqn:S.
  destruct (read_digits 0 0 ds) as [[v n] r] eqn:D.
  destruct r; [|discriminate]. intros _.
  cbn [all_chars].
  destruct (float_char_facts c) as (_ & _ & _ & _ & _ & _ & _ & _ & F & _).
  rewrite F by assumption. simpl.
  assert (Hd : all_chars float_char ds = true)
    by (eapply read_digits_chars; [exact D|reflexivity]).
  destruct s as [|d s']; [reflexivity|].
  destruct (float_char_facts d) as (_ & _ & _ & _ & _ & _ & _ & _ & _ & G).
  apply G. now rewrite S.
Qed.

Lemma parse_decimal_chars (neg : bool) (s : string) (f : pyfloat) :
  parse_decimal neg s = Some f -> all_chars float_char s = true.
Proof.
  unfold parse_decimal.
  destruct (read_digits 0 0 s) as [[ip n1] r1] eqn:D1.
  destruct (match r1 with
            | String "." r => read_digits ip 0 r
            | _ => (ip, 0%Z, r1)
            end) as [[m n2] r2] eqn:D2.
  destruct (0 <? n1 + n2)%Z; [|discriminate].
  destruct (parse_exponent r2) as [x|] eqn:X; [|discriminate]. intros _.
  apply parse_exponent_chars in X.
  eapply read_digits_chars; [exact D1|].
  destruct r1 as [|c r]; [now injection D2 as _ _ <-|].
  destruct (Ascii.eqb c ".") eqn:E.
  - destruct (float_char_facts c) as (_ & _ & _ & _ & _ & _ & _ & F & _).
    simpl. rewrite F by assumption. simpl.
    apply Ascii.eqb_eq in E. subst c.
    eapply read_digits_chars; [exact D2|exact X].
  - assert (K : (match String c r with
                 | String "." r' => read_digits ip 0 r'
                 | _ => (ip, 0%Z, String c r)
                 end) = (ip, 0%Z, String c r)).
    { destruct c as [[] [] [] [] [] [] [] []]; try reflexivity; discriminate. }
    rewrite K in D2. now injection D2 as _ _ <-.
Qed.

(** Only texts made of the characters of numbers are read as numbers. *)
Lemma float_of_string_chars (s : string) (f : pyfloat) :
  float_of_string s = Some f -> all_chars float_char s = true.
Proof.
  unfold float_of_string.
  destruct (drop_underscores zero (to_ascii_spaces s)) as [t|] eqn:D; [|discriminate].
  destruct (read_sign (c_rstrip (c_lstrip t))) as [neg body] eqn:S.
  intros H. apply to_ascii_chars.
  eapply drop_underscores_chars; [exact D|].
  apply c_lstrip_chars, c_rstrip_chars.
  assert (B : all_chars float_char body = true).
  { destruct (parse_inf_or_nan neg body) as [x|] eqn:P.
    - eapply parse_inf_or_nan_chars; exact P.
    - eapply parse_decimal_chars; exact H. }
  destruct (c_rstrip (c_lstrip t)) as [|c u]; [reflexivity|].
  destruct (float_char_facts c) as (_ & _ & _ & _ & _ & _ & _ & _ & _ & G).
  apply G. now rewrite S.
Qed.

(** X8: a text holding any character that cannot occur in a number (a
    currency sign, a letter other than those of e, inf, infinity and nan, a
    slash, a parenthesis) reads as zero. *)
Theorem stray_character_reads_zero (s : string) :
  all_chars float_char s = false ->
  _to_num s = FDec false 0 0 /\ gt0 (_to_num s) = false.
Proof.
  intros H. assert (E : _to_num s = FDec false 0 0).
  { unfold _to_num.
    set (t := strip (str_replace s "," EmptyString)).
    destruct (t =? EmptyString) eqn:Et; [reflexivity|].
    destruct (float_of_string t) as [f|] eqn:F; [|reflexivity].
    apply float_of_string_chars in F. unfold t, strip in F.
    apply rstrip_chars, lstrip_chars, remove_commas_chars in F. congruence. }
  now rewrite E.
Qed.

Lemma stray_character_reads_zero_witness :
  _to_num "$1,250.00" = FDec false 0 0 /\ gt0 (_to_num "$1,250.00") = false.
Proof. apply (stray_character_reads_zero "$1,250.00"). reflexivity. Defined.

(** ** Column-shift corrector: further properties *)

(** X9: the duplicate pass never changes the total of an item: when it
    fires, the value it writes to total is the oandp text, which equals the
    total text. *)
Theorem duplicate_pass_keeps_total (item : LineItem) :
  total (shift_on_dup item) = total item.
Proof.
  rewrite shift_on_dup_cond_b. destruct (cond_b item) eqn:Hb; [|reflexivity].
  unfold cond_b in Hb. apply Bool.andb_true_iff in Hb as [He _].
  apply String.eqb_eq in He. exact He.
Qed.

Lemma zeros_upto_weaken (k : nat) (item : LineItem) :
  zeros_upto (S k) item -> zeros_upto k item.
Proof.
  unfold zeros_upto. intros (H1 & H2 & H3 & H4).
  repeat split; intros; [apply H1|apply H2|apply H3|apply H4]; lia.
Qed.

Lemma zeros_upto_shift (k : nat) (item : LineItem) :
  zeros_upto k item -> zeros_upto (S k) (shift_right item).
Proof.
  unfold zeros_upto. rewrite shift_right_fields. simpl.
  intros (H1 & H2 & H3 & H4). repeat split; intros; auto; try (apply H1; lia);
    try (apply H2; lia); try (apply H3; lia).
Qed.

Lemma zeros_upto_settled (item : LineItem) :
  zeros_upto 4 item -> _needs_left_shift item = false.
Proof.
  intros (H1 & H2 & H3 & H4). apply needs_left_shift_false.
  unfold cond_a, cond_b, cond_c, cond_d.
  rewrite H1, H3, H4 by lia. rewrite zero_text_not_positive.
  rewrite !Bool.andb_false_r. repeat split.
  destruct ("0" =? total item) eqn:E; [|reflexivity].
  apply String.eqb_eq in E. rewrite <- E. apply zero_text_not_positive.
Qed.

Lemma correct_item_settled (item : LineItem) :
  _needs_left_shift item = false -> correct_item item = item.
Proof.
  intros H. unfold correct_item.
  rewrite shift_on_dup_noop by (apply needs_left_shift_false in H; tauto).
  now apply fix_shift_noop.
Qed.

Lemma correct_item_progress (k : nat) (item : LineItem) :
  zeros_upto k item -> _needs_left_shift item = true ->
  zeros_upto (S k) (correct_item item).
Proof.
  intros Hz Hn. unfold correct_item. rewrite shift_on_dup_cond_b.
  assert (F : forall x, zeros_upto (S k) x -> zeros_upto (S k) (fix_shift x)).
  { intros x Hx. unfold fix_shift. destruct (_needs_left_shift x); [|exact Hx].
    apply zeros_upto_weaken, zeros_upto_shift, Hx. }
  destruct (cond_b item).
  - apply F, zeros_upto_shift. exact Hz.
  - unfold fix_shift. rewrite Hn. now apply zeros_upto_shift.
Qed.

Lemma correction_rounds (n : nat) (item : LineItem) :
  _needs_left_shift (Nat.iter n correct_item item) = false \/
  zeros_upto n (Nat.iter n correct_item item).
Proof.
  induction n as [|n IH].
  - right. unfold zeros_upto. repeat split; intros; lia.
  - cbn [Nat.iter nat_rect].
    change (nat_rect (fun _ => LineItem) item (fun _ => correct_item) n)
      with (Nat.iter n correct_item item).
    destruct (_needs_left_shift (Nat.iter n correct_item item)) eqn:E.
    + right. destruct IH as [IH|IH]; [discriminate|].
      now apply correct_item_progress.
    + left. now rewrite correct_item_settled.
Qed.

(** X10: correcting an item over and over comes to rest: after four
    applications of the corrector at most, none of conditions a to d holds on
    the item and a further application returns it unchanged. *)
Theorem correction_settles (item : LineItem) :
  _needs_left_shift (Nat.iter 4 correct_item item) = false /\
  correct_item (Nat.iter 4 correct_item item) = Nat.iter 4 correct_item item.
Proof.
  assert (H : _needs_left_shift (Nat.iter 4 correct_item item) = false).
  { destruct (correction_rounds 4 item) as [H|H]; [exact H|].
    now apply zeros_upto_settled. }
  split; [exact H|now apply correct_item_settled].
Qed.

(** X11: an item with no positive amount in remove, tax, oandp and total is
    returned unchanged by both passes, whatever reset and replace hold. *)
Theorem no_positive_amount_no_shift (item : LineItem) :
  gt0 (_to_num (remove item)) = false ->
  gt0 (_to_num (tax item)) = false ->
  gt0 (_to_num (oandp item)) = false ->
  gt0 (_to_num (total item)) = false ->
  _needs_left_shift item = false /\
  shift_on_dup item = item /\ fix_shift item = item /\ correct_item item = item.
Proof.
  intros Hrm Htx Hop Htt.
  assert (H : _needs_left_shift item = false).
  { apply needs_left_shift_false. unfold cond_a, cond_b, cond_c, cond_d.
    rewrite Hrm, Htx, Hop, Htt, !Bool.andb_false_r. auto. }
  repeat split; auto using fix_shift_noop, correct_item_settled.
  apply shift_on_dup_noop. apply needs_left_shift_false in H. tauto.
Qed.

Lemma no_positive_amount_no_shift_witness :
  correct_item (cost_row "0" "-5.00" "25.00" "n/a" "" "0.00") =
  cost_row "0" "-5.00" "25.00" "n/a" "" "0.00".
Proof.
  apply (no_positive_amount_no_shift (cost_row "0" "-5.00" "25.00" "n/a" "" "0.00"));
    vm_compute; reflexivity.
Defined.

(** X12: whenever the corrector changes an item, the corrected item has 0
    in remove, and condition d does not hold on it. *)
Theorem corrected_item_has_zero_remove (item : LineItem) :
  correct_item item <> item ->
  remove (correct_item item) = "0" /\ cond_d (correct_item item) = false.
Proof.
  intros Hc.
  assert (R : remove (correct_item item) = "0").
  { unfold correct_item in *. rewrite shift_on_dup_cond_b in *.
    unfold fix_shift in *.
    destruct (cond_b item).
    - destruct (_needs_left_shift (shift_right (set_reset "0" item))); reflexivity.
    - destruct (_needs_left_shift item); [reflexivity|congruence]. }
  split; [exact R|]. unfold cond_d.
  now rewrite R, zero_text_not_positive, Bool.andb_false_r.
Qed.

Lemma corrected_item_has_zero_remove_witness :
  remove (correct_item sparse_row) = "0" /\ cond_d (correct_item sparse_row) = false.
Proof.
  apply (corrected_item_has_zero_remove sparse_row).
  vm_compute. discriminate.
Defined.

(** ** Response sanitizer: further properties *)

(** X13: the sanitizer rewrites a line only when the line is a key part, a
    quoted value made of escaped pairs and of characters other than the
    quote and the backslash, and an optional comma with white space
    around it; the rewritten line is then the key part, the JSON string
    literal of the value and the comma. *)
Theorem rewritten_line_has_shape (line : string) :
  fix_line line <> line ->
  exists key value rest trailing,
    key_part key /\ value_text value /\ line_end rest trailing /\
    line = key ++ String dquote (value ++ String dquote rest) /\
    fix_line line = key ++ dumps value ++ trailing.
Proof.
  unfold fix_line.
  destruct (pattern_match line) as [[[key value] trailing]|] eqn:E;
    [|congruence].
  intros _. apply pattern_match_sound in E as (Hk & Hv & rest & He & Hl).
  exists key, value, rest, trailing. auto.
Qed.

Lemma rewritten_line_has_shape_witness :
  exists key value rest trailing,
    key_part key /\ value_text value /\ line_end rest trailing /\
    tab_line = key ++ String dquote (value ++ String dquote rest) /\
    fix_line tab_line = key ++ dumps value ++ trailing.
Proof.
  apply (rewritten_line_has_shape tab_line). vm_compute. discriminate.
Defined.

Lemma span_space_unquoted (w r : string) :
  all_space w = true -> starts_unquoted r = true ->
  span_space (w ++ r) = (w, r).
Proof.
  intros Hw Hr. destruct r as [|c r].
  - rewrite append_empty_r. now apply span_space_all.
  - simpl in Hr. apply Bool.andb_true_iff in Hr as [Hs _].
    apply Bool.negb_true_iff in Hs. now apply span_space_stop.
Qed.

Lemma expect_unquoted (r : string) :
  starts_unquoted r = true -> expect dquote r = None.
Proof.
  destruct r as [|c r]; [reflexivity|]. simpl. intros H.
  apply Bool.andb_true_iff in H as [_ Hq]. apply Bool.negb_true_iff in Hq.
  now rewrite Hq.
Qed.

Lemma match_key_unquoted (key r : string) :
  key_part key -> starts_unquoted r = true ->
  match_key (key ++ r) = Some (key, r).
Proof.
  intros (w0 & k & w1 & w2 & H0 & Hne & Hk & H1 & H2 & ->) Hr.
  unfold match_key.
  rewrite append_assoc. simpl. rewrite span_space_stop by (auto; reflexivity).
  simpl. rewrite append_assoc. simpl. rewrite span_key_stop by assumption.
  apply String.eqb_neq in Hne. rewrite Hne. simpl.
  rewrite append_assoc. simpl. rewrite span_space_stop by (auto; reflexivity).
  simpl. now rewrite span_space_unquoted.
Qed.

(** X14: a line whose first character after the leading white space is not
    a quote (a brace, a bracket, an empty line), and a member line whose
    value does not start with a quote (a number, a list, nothing), are
    returned unchanged. *)
Theorem unquoted_lines_unchanged (w key r : string) :
  all_space w = true -> key_part key -> starts_unquoted r = true ->
  fix_line (w ++ r) = w ++ r /\ fix_line (key ++ r) = key ++ r.
Proof.
  intros Hw Hk Hr. unfold fix_line, pattern_match. split.
  - unfold match_key. rewrite span_space_unquoted by assumption.
    now rewrite expect_unquoted.
  - rewrite match_key_unquoted by assumption. now rewrite expect_unquoted.
Qed.

Lemma unquoted_lines_unchanged_witness :
  fix_line ("    " ++ "},") = "    " ++ "}," /\ fix_line qty_line = qty_line.
Proof.
  destruct (unquoted_lines_unchanged "    " ("  " ++ String dquote ("qty" ++ String dquote ": ")) "},")
    as [H _]; [reflexivity| |reflexivity|].
  { exists "  ", "qty", EmptyString, " ". repeat split; try reflexivity. discriminate. }
  destruct (unquoted_lines_unchanged "    " ("  " ++ String dquote ("qty" ++ String dquote ": ")) "3.07,")
    as [_ K]; [reflexivity| |reflexivity|].
  { exists "  ", "qty", EmptyString, " ". repeat split; try reflexivity. discriminate. }
  exact (conj H K).
Defined.

Lemma find_from_lacks (c : ascii) (s : string) :
  forall i, lacks c s = true -> find_from c i s = (-1)%Z.
Proof.
  induction s as [|a s IH]; intros i H; simpl in *; [reflexivity|].
  apply Bool.andb_true_iff in H as [Ha H]. apply Bool.negb_true_iff in Ha.
  now rewrite Ha, IH.
Qed.

(** X15: the cut to the braces returns a text with no opening brace as it
    is, and cuts a text with a closing brace after its first opening brace
    to the span from the first opening brace to the last closing brace,
    whatever stands before and after. *)
Theorem braces_span_kept (text pre mid post : string) :
  lacks "{" pre = true -> lacks "}" post = true ->
  (lacks "{" text = true -> cut_to_braces text = text) /\
  cut_to_braces (pre ++ String "{" (mid ++ String "}" post)) =
    String "{" (mid ++ String "}" EmptyString).
Proof.
  intros Hpre Hpost. split.
  - intros H. apply cut_to_braces_no_opening. unfold find.
    now apply find_from_lacks.
  - now apply cut_to_braces_span.
Qed.

Lemma braces_span_kept_witness :
  cut_to_braces ("Here it is: " ++ String "{" (" items: [ {}, {} ] " ++ String "}" " Done.")) =
  String "{" (" items: [ {}, {} ] " ++ String "}" EmptyString).
Proof.
  apply (braces_span_kept EmptyString "Here it is: " " items: [ {}, {} ] " " Done.");
    reflexivity.
Defined.

Lemma rfind_from_app_lacks (c : ascii) (a b : string) :
  forall i last, lacks c b = true ->
    rfind_from c i last (a ++ b) = rfind_from c i last a.
Proof.
  induction a as [|x a IH]; intros i last H; simpl.
  - now apply rfind_from_lacks.
  - now apply IH.
Qed.

Lemma rfind_from_upper (c : ascii) (s : string) :
  forall i last, (last < i)%Z ->
    (rfind_from c i last s < i + Z.of_nat (String.length s))%Z.
Proof.
  induction s as [|a s IH]; intros i last H; simpl String.length; simpl rfind_from.
  - lia.
  - specialize (IH (i + 1)%Z (if Ascii.eqb a c then i else last)).
    destruct (Ascii.eqb a c); lia.
Qed.

(** X16: when no closing brace stands after the first opening brace (there
    is none at all, or every closing brace comes before it), the cut to
    the braces returns the empty text. *)
Theorem braces_out_of_order_emptied (pre post : string) :
  lacks "{" pre = true -> lacks "}" post = true ->
  cut_to_braces (pre ++ String "{" post) = EmptyString.
Proof.
  intros Hpre Hpost. rewrite cut_to_braces_guard.
  set (text := pre ++ String "{" post).
  assert (Hf : find text "{" = Z.of_nat (String.length pre)).
  { unfold find, text. now rewrite find_from_app. }
  assert (Hr : (rfind text "}" < Z.of_nat (String.length pre))%Z).
  { unfold rfind, text. rewrite rfind_from_app_lacks.
    - apply (rfind_from_upper "}" pre 0 (-1)). lia.
    - simpl. now rewrite Hpost. }
  rewrite Hf.
  replace (Z.of_nat (String.length pre) =? -1)%Z with false
    by (symmetry; apply Z.eqb_neq; lia).
  pose proof (rfind_from_lower "}" text 0 (-1) ltac:(lia) ltac:(lia)) as Hl.
  fold (rfind text "}") in Hl.
  unfold slice, clamp_index.
  assert (Hlen : (Z.of_nat (String.length pre) <= Z.of_nat (String.length text))%Z).
  { unfold text. rewrite length_append. lia. }
  replace (Z.of_nat (String.length pre) <? 0)%Z with false
    by (symmetry; apply Z.ltb_ge; lia).
  replace (rfind text "}" + 1 <? 0)%Z with false
    by (symmetry; apply Z.ltb_ge; lia).
  replace (Z.to_nat (Z.min (rfind text "}" + 1) _ - Z.min _ _)) with 0%nat by lia.
  apply substring_none.
Qed.

Lemma braces_out_of_order_emptied_witness :
  cut_to_braces ("} and " ++ String "{" " items") = EmptyString.
Proof.
  apply (braces_out_of_order_emptied "} and " " items"); reflexivity.
Defined.

Lemma all_chars_app (p : ascii -> bool) (a b : string) :
  all_chars p (a ++ b) = all_chars p a && all_chars p b.
Proof.
  induction a as [|x a IH]; simpl; [reflexivity|].
  now rewrite IH, Bool.andb_assoc.
Qed.

Lemma all_chars_weaken (p q : ascii -> bool) (s : string) :
  (forall c, p c = true -> q c = true) ->
  all_chars p s = true -> all_chars q s = true.
Proof.
  intros W. induction s as [|c s IH]; simpl; [reflexivity|]. intros H.
  apply Bool.andb_true_iff in H as [Hc Hs]. rewrite (W c Hc). auto.
Qed.

Lemma escape_char_printable (c : ascii) : all_chars printable (escape_char c) = true.
Proof. destruct c as [[] [] [] [] [] [] [] []]; vm_compute; reflexivity. Qed.

Lemma printable_not_break (c : ascii) :
  printable c = true -> negb (is_linebreak c) = true.
Proof.
  destruct c as [[] [] [] [] [] [] [] []]; try (intros H; discriminate H);
    intros _; reflexivity.
Qed.

Lemma dumps_printable (s : string) : all_chars printable (dumps s) = true.
Proof.
  unfold dumps. cbn [all_chars]. change (printable dquote) with true. cbn [andb].
  rewrite all_chars_app. cbn [all_chars]. change (printable dquote) with true.
  cbn [andb]. rewrite Bool.andb_true_r.
  induction s as [|c s IH]; [reflexivity|]. cbn [escape_body].
  now rewrite all_chars_app, escape_char_printable, IH.
Qed.

Lemma fix_line_break_free (line : string) :
  break_free line = true -> break_free (fix_line line) = true.
Proof.
  intros H. unfold fix_line.
  destruct (pattern_match line) as [[[key value] trailing]|] eqn:E; [|exact H].
  apply pattern_match_sound in E as (_ & _ & rest & (w3 & w4 & _ & _ & Ht & _) & ->).
  unfold break_free in *. rewrite all_chars_app in H.
  apply Bool.andb_true_iff in H as [Hk _].
  rewrite !all_chars_app, Hk.
  rewrite (all_chars_weaken printable _ (dumps value) printable_not_break)
    by apply dumps_printable.
  now destruct Ht as [-> | ->].
Qed.

Lemma splitlines_from_break_free (n : nat) :
  forall s cur, String.length s <= n -> break_free cur = true ->
    Forall (fun l => break_free l = true) (splitlines_from cur s).
Proof.
  induction n as [|n IH]; intros s cur Hlen Hcur.
  - destruct s; [|simpl in Hlen; lia]. simpl.
    destruct (cur =? EmptyString); auto.
  - destruct s as [|c s]; simpl.
    + destruct (cur =? EmptyString); auto.
    + simpl in Hlen. destruct (is_linebreak c) eqn:Hb.
      * destruct s as [|c' s'].
        -- constructor; [assumption|]. apply IH; [simpl; lia|reflexivity].
        -- destruct ((ord c =? 13)%N && (ord c' =? 10)%N);
             (constructor; [assumption|]); apply IH;
             simpl in *; try lia; reflexivity.
      * apply IH; [lia|]. unfold break_free in *.
        rewrite all_chars_app, Hcur. simpl. now rewrite Hb.
Qed.

Lemma join_line_feeds (lines : list string) :
  Forall (fun l => break_free l = true) lines ->
  only_line_feeds (join newline lines) = true.
Proof.
  assert (W : forall l, break_free l = true -> only_line_feeds l = true).
  { intros l. apply all_chars_weaken. intros c ->. reflexivity. }
  induction 1 as [|l rest Hl Hrest IH]; [reflexivity|].
  unfold join in *. cbn [String.concat].
  destruct rest as [|l2 rest]; [now apply W|].
  unfold only_line_feeds in *. rewrite !all_chars_app, (W l Hl), IH. reflexivity.
Qed.

Lemma splitlines_from_line (l s : string) :
  forall cur, break_free l = true ->
    splitlines_from cur (l ++ s) = splitlines_from (cur ++ l) s.
Proof.
  induction l as [|c l IH]; intros cur H.
  - now rewrite append_empty_r.
  - unfold break_free in H. cbn [all_chars] in H.
    apply Bool.andb_true_iff in H as [Hc Hl]. apply Bool.negb_true_iff in Hc.
    cbn [append splitlines_from]. rewrite Hc, IH by exact Hl.
    now rewrite append_assoc.
Qed.

Lemma splitlines_from_boundary (b rest cur : string) :
  is_boundary b = true -> cr_safe b rest = true ->
  splitlines_from cur (b ++ rest) = cur :: splitlines_from EmptyString rest.
Proof.
  destruct b as [|c [|c' [|? ?]]]; try discriminate; cbn [is_boundary append].
  - intros Hc Hs. cbn [splitlines_from]. rewrite Hc.
    destruct rest as [|c' r]; [reflexivity|].
    cbn [cr_safe] in Hs. apply Bool.negb_true_iff in Hs. now rewrite Hs.
  - intros H _. cbn [splitlines_from].
    assert (Hc : is_linebreak c = true).
    { apply Bool.andb_true_iff in H as [Hc _]. apply N.eqb_eq in Hc.
      unfold is_linebreak, in_range. rewrite Hc. reflexivity. }
    now rewrite Hc, H.
Qed.

(** A text made of lines and boundaries is split into those lines; a last
    line that is empty is not a line. *)
Lemma splitlines_lines_text (parts : list (string * string)) (last : string) :
  well_split parts last = true ->
  splitlines (lines_text parts last) =
  (map fst parts ++ (if (last =? EmptyString) then [] else [last]))%list.
Proof.
  unfold splitlines. induction parts as [|[l b] rest IH]; cbn [well_split lines_text].
  - intros H. rewrite <- (append_empty_r last) at 1.
    rewrite splitlines_from_line by exact H. reflexivity.
  - intros H. apply Bool.andb_true_iff in H as [H Hw].
    apply Bool.andb_true_iff in H as [H Hs].
    apply Bool.andb_true_iff in H as [Hl Hb].
    rewrite splitlines_from_line by exact Hl.
    rewrite splitlines_from_boundary by assumption.
    cbn [map fst app append]. now rewrite IH.
Qed.

(** X17: [fix_json_lines] repairs a text line by line and puts one line
    feed between two lines, whatever boundary stood there (a line feed, a
    carriage return, a carriage return and a line feed read as one
    boundary, or another boundary character of splitlines); a boundary at
    the very end is dropped.  So every line boundary of the text it
    returns is a line feed, and a rewritten value holds printable ASCII
    only. *)
Theorem sanitizer_line_feeds_only (raw_json : string) :
  only_line_feeds (fix_json_lines raw_json) = true /\
  (forall value, all_chars printable (dumps value) = true) /\
  (forall parts last,
     raw_json = lines_text parts last -> well_split parts last = true ->
     fix_json_lines raw_json =
     join newline
       (map fix_line
            (map fst parts ++ (if (last =? EmptyString) then [] else [last]))%list)).
Proof.
  split; [|split; [apply dumps_printable|]].
  - unfold fix_json_lines. apply join_line_feeds.
    assert (S : Forall (fun l => break_free l = true) (splitlines raw_json))
      by (apply (splitlines_from_break_free (String.length raw_json)); auto).
    induction S as [|l rest Hl _ IH]; simpl; constructor; auto.
    now apply fix_line_break_free.
  - intros parts last -> H. unfold fix_json_lines.
    now rewrite splitlines_lines_text.
Qed.

Lemma sanitizer_line_feeds_only_witness :
  fix_json_lines (lines_text crlf_parts EmptyString) = "{" ++ newline ++ "}".
Proof.
  destruct (sanitizer_line_feeds_only (lines_text crlf_parts EmptyString))
    as (_ & _ & H).
  exact (H crlf_parts EmptyString eq_refl eq_refl).
Defined.

Lemma backtick_free_replace (old' new : string) (s : string) :
  lacks "`" s = true ->
  str_replace s (String "`" old') new = s.
Proof.
  unfold str_replace. induction s as [|c s IH]; [reflexivity|].
  cbn [lacks replace_from prefix]. intros H.
  apply Bool.andb_true_iff in H as [Hc Hs]. apply Bool.negb_true_iff in Hc.
  destruct (ascii_dec "`" c) as [<-|N]; [discriminate|].
  now rewrite IH.
Qed.

Lemma all_space_lacks_backtick (s : string) :
  all_space s = true -> lacks "`" s = true.
Proof.
  induction s as [|c s IH]; simpl; [reflexivity|]. intros H.
  apply Bool.andb_true_iff in H as [Hc Hs]. rewrite IH by assumption.
  destruct (Ascii.eqb c "`") eqn:E; [|reflexivity].
  apply Ascii.eqb_eq in E. subst c. discriminate.
Qed.

(** X18: a response without a fence marker is only stripped before the
    cut to the braces, and a response of white space alone (the empty
    response included) is cleaned to the empty text. *)
Theorem blank_response_cleaned_empty (text : string) :
  (lacks "`" text = true -> strip_fences text = strip text) /\
  (all_space text = true -> clean_json_string text = EmptyString).
Proof.
  assert (F : lacks "`" text = true -> strip_fences text = strip text).
  { intros H. unfold strip_fences.
    now rewrite (backtick_free_replace "``json"), (backtick_free_replace "``")
      by (try rewrite (backtick_free_replace "``json"); assumption). }
  split; [exact F|]. intros H. unfold clean_json_string.
  rewrite F by now apply all_space_lacks_backtick.
  now rewrite strip_all_space.
Qed.

(** ** Item loop and orchestrator: further properties *)

Lemma correct_item_field (f : StickyField) (d : LineItem) :
  item_field f (correct_item d) = item_field f d /\
  row_text (correct_item d) = row_text d.
Proof.
  unfold correct_item, fix_shift. rewrite shift_on_dup_cond_b.
  destruct (cond_b d);
    match goal with |- context [if ?b then _ else _] => destruct b end;
    destruct f; split; reflexivity.
Qed.

Lemma carry_forward_row_text (i : nat) (d : LineItem) (st : CarryState) :
  row_text (carried_item i d st) = row_text d.
Proof. unfold carried_item. carry_cases d st; reflexivity. Qed.

Lemma resolved_not_empty (v : string) : resolved v -> v <> EmptyString.
Proof.
  intros [-> | H]; [discriminate|]. intros ->. apply H. now left.
Qed.

Lemma carry_forward_resolved (f : StickyField) (i : nat) (d : LineItem) (st : CarryState) :
  resolved (state_field f st) ->
  resolved (item_field f (carried_item i d st)) /\
  resolved (state_field f (carried_state i d st)).
Proof.
  intros Hs. pose proof (carry_forward_field f i d st) as E.
  destruct (lacks_value (item_field f d)) eqn:L; injection E as -> ->.
  - auto.
  - apply lacks_value_false in L. split; right; exact L.
Qed.

Lemma process_items_cons (i : nat) (d : LineItem) (rest : list LineItem) (st : CarryState) :
  fst (process_items i (d :: rest) st) =
  (correct_item (carried_item i d st)
     :: fst (fst (process_items i rest (carried_state i d st))),
   snd (fst (process_items i rest (carried_state i d st)))).
Proof.
  unfold carried_item, carried_state. cbn [process_items].
  destruct (carry_forward i d st) as [[d1 s1] o1]. cbn [fst snd].
  now destruct (process_items i rest s1) as [[fx s2] o2].
Qed.

Lemma process_items_resolved (i : nat) (items : list LineItem) :
  forall st, (forall f, resolved (state_field f st)) ->
    Forall (fun d => forall f, resolved (item_field f d))
           (fst (fst (process_items i items st))).
Proof.
  induction items as [|d rest IH]; intros st Hs; [constructor|].
  rewrite process_items_cons. cbn [fst]. constructor.
  - intros f. destruct (correct_item_field f (carried_item i d st)) as [-> _].
    now apply carry_forward_resolved.
  - apply IH. intros f. now apply carry_forward_resolved.
Qed.

Lemma process_items_row_text (i : nat) (items : list LineItem) :
  forall st, map row_text (fst (fst (process_items i items st))) = map row_text items.
Proof.
  induction items as [|d rest IH]; intros st; [reflexivity|].
  rewrite process_items_cons. cbn [fst map]. rewrite IH. f_equal.
  destruct (correct_item_field Unit (carried_item i d st)) as [_ ->].
  apply carry_forward_row_text.
Qed.

Lemma process_items_inherit (f : StickyField) (i : nat) (items : list LineItem) :
  forall st, Forall (fun x => missing (item_field f x)) items ->
    map (item_field f) (fst (fst (process_items i items st))) =
      repeat (state_field f st) (List.length items) /\
    state_field f (snd (fst (process_items i items st))) = state_field f st.
Proof.
  induction items as [|d rest IH]; intros st H; [split; reflexivity|].
  inversion H as [|? ? Hd Hrest]; subst.
  rewrite process_items_cons. cbn [fst snd map List.length repeat].
  pose proof (carry_forward_field f i d st) as E.
  apply lacks_value_spec in Hd. rewrite Hd in E. injection E as E1 E2.
  destruct (IH (carried_state i d st) Hrest) as [M S].
  destruct (correct_item_field f (carried_item i d st)) as [-> _].
  rewrite M, S, E1, E2. auto.
Qed.

(** X19: the items of a fixed list come out with the unit, room, category
    of the nearest item at or before them that has a value of its own: after
    an item with a value, the items that lack one all receive that value,
    up to the next item that has one. *)
Theorem nearest_value_inherited
  (f : StickyField) (l1 l2 : list LineItem) (d : LineItem) :
  ~ missing (item_field f d) ->
  Forall (fun x => missing (item_field f x)) l2 ->
  map (item_field f) (corrected_items (l1 ++ d :: l2)%list) =
  (map (item_field f) (corrected_items l1) ++
   repeat (item_field f d) (S (List.length l2)))%list.
Proof.
  intros Hd Hl. unfold corrected_items.
  rewrite process_items_app. cbn [fst]. rewrite map_app. f_equal.
  set (st := snd (fst (process_items 0 l1 initial_state))).
  rewrite process_items_cons. cbn [fst map repeat].
  pose proof (carry_forward_field f 0 d st) as E.
  apply lacks_value_false in Hd. rewrite Hd in E. injection E as E1 E2.
  destruct (correct_item_field f (carried_item 0 d st)) as [-> _].
  destruct (process_items_inherit f 0 l2 (carried_state 0 d st) Hl) as [M _].
  now rewrite M, E1, E2.
Qed.

Lemma nearest_value_inherited_witness :
  map unit (corrected_items [text_row "" "Hall" "Walls"; text_row "Unit 7" "" "";
                             text_row "unknown" "" ""; text_row " Unknown" "" ""]) =
  ["unknown"; "Unit 7"; "Unit 7"; "Unit 7"].
Proof.
  apply (nearest_value_inherited Unit [text_row "" "Hall" "Walls"]
           [text_row "unknown" "" ""; text_row " Unknown" "" ""]
           (text_row "Unit 7" "" "")).
  - intros [H|H]; vm_compute in H; discriminate.
  - repeat constructor; right; vm_compute; reflexivity.
Defined.

Section OrchestratorInvariants.

Variable Chunk : Type.
Variable generate_content : Chunk -> option string.
Variable json_loads : string -> option json.
Variable BDRItems : list (string * json) -> option (list LineItem).

Local Abbreviation items_of := (chunk_items Chunk generate_content json_loads BDRItems).
Local Abbreviation ok := (succeeded Chunk generate_content json_loads BDRItems).
Local Abbreviation loop := (process_chunks Chunk generate_content json_loads BDRItems).
Local Abbreviation run := (process_pdf_chunks Chunk generate_content json_loads BDRItems).
Local Abbreviation report := (failure_report Chunk generate_content json_loads BDRItems).

Lemma run_items (chunks : list Chunk) :
  fst (run chunks) = corrected_items (flat_map items_of chunks).
Proof.
  unfold process_pdf_chunks.
  pose proof (process_chunks_items Chunk generate_content json_loads BDRItems
                chunks 0 initial_state [] []) as H.
  destruct (loop 0 chunks initial_state [] []) as [[a s] o]. exact H.
Qed.

(** X20: in the output of a run no item has an empty unit, room or
    category: each of the three is the text unknown itself, or a value
    that is not empty and does not read unknown once trimmed and
    lower-cased. *)
Theorem output_fields_resolved (chunks : list Chunk) (d : LineItem) (f : StickyField) :
  In d (fst (run chunks)) ->
  resolved (item_field f d) /\ item_field f d <> EmptyString.
Proof.
  rewrite run_items. unfold corrected_items. intros H.
  assert (R : resolved (item_field f d)).
  { pose proof (process_items_resolved 0 (flat_map items_of chunks) initial_state) as F.
    rewrite Forall_forall in F. apply F; [|exact H].
    intros g. left. now destruct g. }
  split; [exact R|now apply resolved_not_empty].
Qed.

(** X21: a run neither drops, repeats nor reorders the items of the chunks
    it extracts, and returns their serial, description, qty and uom as
    extracted. *)
Theorem output_keeps_row_text (chunks : list Chunk) :
  map row_text (fst (run chunks)) = map row_text (flat_map items_of chunks).
Proof.
  rewrite run_items. unfold corrected_items. apply process_items_row_text.
Qed.

Lemma failure_report_length (chunks : list Chunk) :
  forall i, List.length (report i chunks) + List.length (filter ok chunks) =
            List.length chunks.
Proof.
  induction chunks as [|c rest IH]; intros i; [reflexivity|].
  cbn [failure_report filter]. unfold succeeded at 1.
  destruct (extract_chunk Chunk generate_content json_loads BDRItems c);
    cbn [List.length]; specialize (IH (S i)); lia.
Qed.


End OrchestratorInvariants.

Lemma output_fields_resolved_witness :
  resolved (unit (text_row "unknown" "Hall" "Walls")) /\
  unit (text_row "unknown" "Hall" "Walls") <> EmptyString.
Proof.
  apply (output_fields_resolved nat ThreeChunks.generate_content
           ThreeChunks.json_loads ThreeChunks.BDRItems [1; 2; 3]
           (text_row "unknown" "Hall" "Walls") Unit).
  vm_compute. left. reflexivity.
Defined.

Lemma all_space_no_commas (w : string) :
  all_space w = true -> str_replace w "," EmptyString = w.
Proof.
  induction w as [|c w IH]; [reflexivity|]. simpl all_space. intros H.
  apply Bool.andb_true_iff in H as [Hc Hw]. rewrite remove_commas_cons, IH by assumption.
  destruct (Ascii.eqb c ",") eqn:E; [|reflexivity].
  apply Ascii.eqb_eq in E. subst c. discriminate.
Qed.

Lemma lstrip_app_space (w s : string) :
  all_space w = true -> lstrip (w ++ s) = lstrip s.
Proof.
  induction w as [|c w IH]; [reflexivity|]. simpl. intros H.
  apply Bool.andb_true_iff in H as [-> Hw]. auto.
Qed.

Lemma rstrip_app_space (s w : string) :
  all_space w = true -> rstrip (s ++ w) = rstrip s.
Proof.
  intros Hw. induction s as [|c s IH].
  - simpl. clear -Hw. induction w as [|c w IH]; [reflexivity|]. simpl in *.
    apply Bool.andb_true_iff in Hw as [Hc Hw]. now rewrite IH, Hc.
  - simpl. now rewrite IH.
Qed.

Lemma strip_app_space (w1 s w2 : string) :
  all_space w1 = true -> all_space w2 = true ->
  strip (w1 ++ s ++ w2) = strip s.
Proof.
  intros H1 H2. unfold strip. rewrite lstrip_app_space by assumption.
  induction s as [|c s IH].
  - simpl. now rewrite lstrip_all_space.
  - cbn [append lstrip]. destruct (isspace c); [exact IH|].
    change (String c (s ++ w2)) with (String c s ++ w2).
    now apply rstrip_app_space.
Qed.

(** X23: white space before and after the text of an amount is ignored. *)
Theorem to_num_ignores_outer_space (w1 s w2 : string) :
  all_space w1 = true -> all_space w2 = true ->
  _to_num (w1 ++ s ++ w2) = _to_num s.
Proof.
  intros H1 H2. unfold _to_num.
  rewrite !remove_commas_app.
  rewrite (all_space_no_commas w1), (all_space_no_commas w2) by assumption.
  now rewrite strip_app_space.
Qed.

Lemma to_num_ignores_outer_space_witness :
  _to_num ("  " ++ "1,250.00" ++ " ") = _to_num "1,250.00".
Proof.
  apply (to_num_ignores_outer_space "  " "1,250.00" " "); reflexivity.
Defined.
